(** * AVLSystem: the feed synthesis engine of [fixed_avl_system.py]

    A shallow embedding of the decision logic of [AVLSystem]: the schedule
    index ([process_gtfs_data], [get_trip_stops]), the heading estimation
    inside [create_vehicle_position] (with [calculate_bearing]), the three
    feed builders and one synthesis cycle ([process_data]).

    Conventions of the embedding.
    - A Python [dict] with string keys is a [gmap string _]; a dict that the
      code builds with a fixed set of keys is a record.
    - A Python [float] is the real number it denotes (type [R]): rounding,
      NaN and the infinities are outside the model.  [int] is [Z].
    - An exception is a value of [exn]; fallible code returns [result].
    - The environment read by a call ([time.time()], [datetime.now()],
      [uuid.uuid4()]) is an explicit argument, a [clock].
    - A feed message is a record of the values assigned to it; an
      assignment checks what the generated message classes check, the type
      and the range of the value.  The 32-bit rounding of a [float] field
      is outside the model.
    - What the interpreter and its libraries provide and the repository
      does not define (the literal parsers behind [int(str)] and
      [float(str)], [str] of a float, [strptime], the enum tables of the
      feed schema) is gathered in the class [Runtime]. *)

From Stdlib Require Import ZArith Reals Lra Lia List Sorting.Sorted.
From Stdlib Require Import Strings.String Strings.Ascii DecimalString.
From stdpp Require Import base option list sorting gmap strings.

Local Open Scope Z_scope.
Local Open Scope string_scope.

(** ** Python values and exceptions *)

Module Py.

(** The scalars that reach the engine from JSON telemetry, from the
    configuration file and from the schedule tables.  A Python [bool] is an
    [int] (0 or 1) for every operation the engine applies except [str]. *)
Inductive pyval : Type :=
  | PNone
  | PInt (z : Z)
  | PFloat (r : R)
  | PStr (s : string).

Inductive exn : Type :=
  | ValueError
  | TypeError
  | KeyError.

Inductive result (A : Type) : Type :=
  | Ok (a : A)
  | Raise (e : exn).
Arguments Ok {A} a.
Arguments Raise {A} e.

Definition bind {A B} (m : result A) (k : A -> result B) : result B :=
  match m with
  | Ok a => k a
  | Raise e => Raise e
  end.

End Py.
Export Py.

Notation "'try!' x ':=' m 'in' k" := (bind m (fun x => k))
  (at level 10, x pattern, m at level 100, k at level 200,
   format "'[v' 'try!'  x  ':='  m  'in' '/' k ']'").

(** [for x in xs: acc = step(acc, x)] where the body may raise: the first
    exception ends the loop. *)
Fixpoint for_each {A S} (step : S -> A -> result S) (xs : list A) (acc : S)
  : result S :=
  match xs with
  | [] => Ok acc
  | x :: rest => try! acc' := step acc x in for_each step rest acc'
  end.

(** ** What the interpreter provides *)

(** The library functions the engine calls and the repository does not
    define.  [None] stands for the [ValueError] the function raises. *)
Class Runtime : Type := {
  (** [int(s)] on a string. *)
  int_of_str : string -> option Z;
  (** [float(s)] on a string. *)
  float_of_str : string -> option R;
  (** [str(x)] on a float. *)
  repr_float : R -> string;
  (** [int(datetime.strptime(s, "%Y%m%d %H:%M:%S").timestamp())]. *)
  strptime_timestamp : string -> option Z;
  (** The numbers of the schema's [Cause] and [Effect] enums. *)
  valid_cause : Z -> bool;
  valid_effect : Z -> bool
}.

(** One reading of the environment: [time.time()], the two [strftime]
    renderings of [datetime.now()] and a fresh [uuid.uuid4()].  Every read
    within one call sees the same instant. *)
Record clock : Type := {
  time_time : R;
  strftime_Ymd : string;
  strftime_HMS : string;
  uuid4 : string
}.

(** [int(x)] on a float truncates toward zero. *)
Definition trunc (r : R) : Z :=
  if Rle_dec 0 r then Int_part r else (- Int_part (- r))%Z.

(** [int(time.time())]. *)
Definition int_time (c : clock) : Z := trunc (time_time c).

Section Builtins.
Context `{Runtime}.

(** [float(v)]. *)
Definition py_float (v : pyval) : result R :=
  match v with
  | PNone => Raise TypeError
  | PInt z => Ok (IZR z)
  | PFloat r => Ok r
  | PStr s => match float_of_str s with Some r => Ok r | None => Raise ValueError end
  end.

(** [int(v)]. *)
Definition py_int (v : pyval) : result Z :=
  match v with
  | PNone => Raise TypeError
  | PInt z => Ok z
  | PFloat r => Ok (trunc r)
  | PStr s => match int_of_str s with Some z => Ok z | None => Raise ValueError end
  end.

(** [str(v)]. *)
Definition py_str (v : pyval) : string :=
  match v with
  | PNone => "None"
  | PInt z => NilZero.string_of_int (Z.to_int z)
  | PFloat r => repr_float r
  | PStr s => s
  end.

End Builtins.

(** [bool(v)]: the truth value of a scalar. *)
Definition truthy (v : pyval) : bool :=
  match v with
  | PNone => false
  | PInt z => negb (z =? 0)%Z
  | PFloat r => if Req_dec_T r 0 then false else true
  | PStr s => negb (String.eqb s "")
  end.

(** [d.get(k, dflt)]. *)
Definition dict_get {V} (d : gmap string V) (k : string) (dflt : V) : V :=
  default dflt (d !! k).

(** [d.get(k)]: [None] when the key is absent. *)
Definition dict_get_none (d : gmap string pyval) (k : string) : pyval :=
  dict_get d k PNone.

(** [d[k]]. *)
Definition dict_item {V} (d : gmap string V) (k : string) : result V :=
  match d !! k with
  | Some v => Ok v
  | None => Raise KeyError
  end.

(** ** The schedule index: [process_gtfs_data] and [get_trip_stops] *)

Module Schedule.

(** A row of a raw table, as [DataFrame.to_dict('records')] gives it. *)
Abbreviation row := (gmap string pyval).

(** The raw tables, keyed by table name ([routes], [trips], [stops],
    [stop_times], [calendar], [calendar_dates]). *)
Abbreviation raw_tables := (gmap string (list row)).

Record route_rec : Type := {
  route_id : string;
  route_name : pyval;
  route_type : pyval;
  route_color : pyval;
  route_text_color : pyval
}.

Record trip_rec : Type := {
  trip_id : string;
  trip_route_id : string;
  service_id : pyval;
  direction_id : Z;
  shape_id : pyval;
  wheelchair_accessible : pyval
}.

Record stop_rec : Type := {
  stop_id : string;
  stop_name : pyval;
  stop_lat : R;
  stop_lon : R;
  stop_code : pyval;
  stop_desc : pyval
}.

Record stop_seq_rec : Type := {
  stop_sequence : Z;
  seq_stop_id : string;
  arrival_time : pyval;
  departure_time : pyval;
  stop_headsign : pyval;
  pickup_type : pyval;
  drop_off_type : pyval
}.

(** The inputs of one service alert. *)
Record alert_data : Type := {
  alert_id : option pyval;
  alert_header : option pyval;
  alert_description : option pyval;
  alert_duration : option pyval;
  alert_affected_entities : option (list pyval);
  alert_cause : option pyval;
  alert_effect : option pyval
}.

(** The processed schedule, the dict the engine calls [gtfs_data]: a key is
    in the dict when its field is [Some].  [process_data] looks for a fifth
    key, [alerts]. *)
Record gtfs_data : Type := {
  routes : option (gmap string route_rec);
  trips : option (gmap string trip_rec);
  stops : option (gmap string stop_rec);
  stop_sequences : option (gmap string (list stop_seq_rec));
  alerts : option (list alert_data)
}.

(** The dicts [get_trip_stops] returns. *)
Record trip_stop : Type := {
  ts_stop_sequence : Z;
  ts_stop_id : string;
  ts_stop_name : pyval;
  ts_arrival_time : pyval;
  ts_departure_time : pyval
}.

(** [list.sort(key=lambda x: x['stop_sequence'])]: a stable ascending sort.
    Insertion from the right, placing an element before the first one whose
    key is not smaller, computes the one stable sorted arrangement. *)
Fixpoint insert_by_sequence (x : stop_seq_rec) (l : list stop_seq_rec)
  : list stop_seq_rec :=
  match l with
  | [] => [x]
  | y :: l' =>
      if (stop_sequence x <=? stop_sequence y)%Z then x :: y :: l'
      else y :: insert_by_sequence x l'
  end.

Definition sort_by_sequence (l : list stop_seq_rec) : list stop_seq_rec :=
  foldr insert_by_sequence [] l.

Section Build.
Context `{Runtime}.

(** The body of [for route in gtfs_data['routes']]. *)
Definition add_route (acc : gmap string route_rec) (route : row)
  : result (gmap string route_rec) :=
  let route_id := py_str (dict_get route "route_id" (PStr "")) in
  Ok (<[route_id := {|
        route_id := route_id;
        route_name := dict_get route "route_long_name" (PStr "");
        route_type := dict_get route "route_type" (PStr "");
        route_color := dict_get route "route_color" (PStr "");
        route_text_color := dict_get route "route_text_color" (PStr "") |}]> acc).

(** The body of [for trip in gtfs_data['trips']]. *)
Definition add_trip (acc : gmap string trip_rec) (trip : row)
  : result (gmap string trip_rec) :=
  let trip_id := py_str (dict_get trip "trip_id" (PStr "")) in
  let route_id := py_str (dict_get trip "route_id" (PStr "")) in
  try! direction := py_int (dict_get trip "direction_id" (PInt 0)) in
  Ok (<[trip_id := {|
        trip_id := trip_id;
        trip_route_id := route_id;
        service_id := dict_get trip "service_id" (PStr "");
        direction_id := direction;
        shape_id := dict_get trip "shape_id" (PStr "");
        wheelchair_accessible := dict_get trip "wheelchair_accessible" (PStr "") |}]> acc).

(** The body of [for stop in gtfs_data['stops']]. *)
Definition add_stop (acc : gmap string stop_rec) (stop : row)
  : result (gmap string stop_rec) :=
  let stop_id := py_str (dict_get stop "stop_id" (PStr "")) in
  try! lat := py_float (dict_get stop "stop_lat" (PFloat 0)) in
  try! lon := py_float (dict_get stop "stop_lon" (PFloat 0)) in
  Ok (<[stop_id := {|
        stop_id := stop_id;
        stop_name := dict_get stop "stop_name" (PStr "");
        stop_lat := lat;
        stop_lon := lon;
        stop_code := dict_get stop "stop_code" (PStr "");
        stop_desc := dict_get stop "stop_desc" (PStr "") |}]> acc).

(** The body of [for stop_time in gtfs_data['stop_times']]: the entry is
    appended to its trip's list, created empty at the trip's first row. *)
Definition add_stop_time (acc : gmap string (list stop_seq_rec)) (stop_time : row)
  : result (gmap string (list stop_seq_rec)) :=
  let trip_id := py_str (dict_get stop_time "trip_id" (PStr "")) in
  let stop_id := py_str (dict_get stop_time "stop_id" (PStr "")) in
  try! sequence := py_int (dict_get stop_time "stop_sequence" (PInt 0)) in
  Ok (<[trip_id := (dict_get acc trip_id [] ++ [{|
        stop_sequence := sequence;
        seq_stop_id := stop_id;
        arrival_time := dict_get stop_time "arrival_time" (PStr "");
        departure_time := dict_get stop_time "departure_time" (PStr "");
        stop_headsign := dict_get stop_time "stop_headsign" (PStr "");
        pickup_type := dict_get stop_time "pickup_type" (PStr "");
        drop_off_type := dict_get stop_time "drop_off_type" (PStr "") |}])%list]> acc).

(** [if name in gtfs_data: for r in gtfs_data[name]: ...], starting from the
    empty dict. *)
Definition process_table {V} (raw : raw_tables) (name : string)
    (step : gmap string V -> row -> result (gmap string V))
  : result (gmap string V) :=
  match raw !! name with
  | Some rows => for_each step rows ∅
  | None => Ok ∅
  end.

(** [AVLSystem.process_gtfs_data]. *)
Definition process_gtfs_data (raw : raw_tables) : result gtfs_data :=
  try! routes := process_table raw "routes" add_route in
  try! trips := process_table raw "trips" add_trip in
  try! stops := process_table raw "stops" add_stop in
  try! sequences := process_table raw "stop_times" add_stop_time in
  Ok {| routes := Some routes;
        trips := Some trips;
        stops := Some stops;
        stop_sequences := Some (sort_by_sequence <$> sequences);
        alerts := None |}.

End Build.

(** [gtfs_data[key]] on the processed dict. *)
Definition section {V} (field : option V) : result V :=
  match field with
  | Some v => Ok v
  | None => Raise KeyError
  end.

(** The body of [for stop_seq in gtfs_data['stop_sequences'][trip_id]]:
    an entry whose stop is not in the stops table adds nothing. *)
Definition join_stop (g : gtfs_data) (acc : list trip_stop) (stop_seq : stop_seq_rec)
  : result (list trip_stop) :=
  try! stops := section (stops g) in
  match stops !! seq_stop_id stop_seq with
  | Some stop_info =>
      Ok (acc ++ [{|
        ts_stop_sequence := stop_sequence stop_seq;
        ts_stop_id := seq_stop_id stop_seq;
        ts_stop_name := stop_name stop_info;
        ts_arrival_time := arrival_time stop_seq;
        ts_departure_time := departure_time stop_seq |}])%list
  | None => Ok acc
  end.

(** [AVLSystem.get_trip_stops]. *)
Definition get_trip_stops (trip_id : string) (g : gtfs_data) : result (list trip_stop) :=
  try! sequences := section (stop_sequences g) in
  match sequences !! trip_id with
  | Some entries => for_each (join_stop g) entries []
  | None => Ok []
  end.

End Schedule.

(** ** Feed messages *)

Module Feed.

Record FeedHeader : Type := {
  gtfs_realtime_version : option string;
  timestamp : option Z
}.

Record TripDescriptor : Type := {
  trip_id : string;
  route_id : string;
  direction_id : Z;
  start_time : option string;
  start_date : string
}.

Record VehicleDescriptor : Type := {
  id : string;
  label : string
}.

Record Position : Type := {
  latitude : R;
  longitude : R;
  bearing : R
}.

Record VehiclePosition : Type := {
  vp_trip : TripDescriptor;
  vp_position : Position;
  vp_vehicle : VehicleDescriptor;
  vp_timestamp : Z
}.

Record StopTimeUpdate : Type := {
  stop_sequence : Z;
  stop_id : string;
  arrival : option Z;
  departure : option Z;
  schedule_relationship : Z
}.

Record TripUpdate : Type := {
  tu_trip : TripDescriptor;
  tu_vehicle : VehicleDescriptor;
  tu_timestamp : Z;
  stop_time_update : list StopTimeUpdate
}.

Record Alert : Type := {
  header_text : list string;
  description_text : list string;
  active_period : list (Z * Z);
  informed_entity : list string;
  cause : Z;
  effect : Z
}.

(** The [oneof] of a feed entity. *)
Inductive payload : Type :=
  | Vehicle (v : VehiclePosition)
  | TripUpdateOf (t : TripUpdate)
  | AlertOf (a : Alert).

Record FeedEntity : Type := {
  entity_id : string;
  entity_payload : payload
}.

Record FeedMessage : Type := {
  header : FeedHeader;
  entity : list FeedEntity
}.

(** Assignment to an integer field: the generated classes refuse a value
    outside the field's range. *)
Definition set_uint32 (z : Z) : result Z :=
  if ((0 <=? z) && (z <? 2 ^ 32))%Z then Ok z else Raise ValueError.

Definition set_uint64 (z : Z) : result Z :=
  if ((0 <=? z) && (z <? 2 ^ 64))%Z then Ok z else Raise ValueError.

Definition set_int64 (z : Z) : result Z :=
  if ((- 2 ^ 63 <=? z) && (z <? 2 ^ 63))%Z then Ok z else Raise ValueError.

(** Assignment to a string field: only a [str] is accepted. *)
Definition set_string (v : pyval) : result string :=
  match v with
  | PStr s => Ok s
  | _ => Raise TypeError
  end.

(** Assignment to an enum field: an [int] that is one of the enum's
    numbers. *)
Definition set_enum (valid : Z -> bool) (v : pyval) : result Z :=
  match v with
  | PInt z => if valid z then Ok z else Raise ValueError
  | _ => Raise TypeError
  end.

(** The header every builder writes first. *)
Definition make_header (c : clock) : result FeedHeader :=
  try! ts := set_uint64 (int_time c) in
  Ok {| gtfs_realtime_version := Some "2.0"; timestamp := Some ts |}.

End Feed.

(** ** Heading estimation *)

Module Heading.

Local Open Scope R_scope.

(** [math.atan2(y, x)] on real numbers. *)
Definition atan2 (y x : R) : R :=
  if Rlt_dec 0 x then atan (y / x)
  else if Rlt_dec x 0 then
    if Rle_dec 0 y then atan (y / x) + PI else atan (y / x) - PI
  else if Rlt_dec 0 y then PI / 2
  else if Rlt_dec y 0 then - PI / 2
  else 0.

Definition radians (x : R) : R := x * PI / 180.
Definition degrees (x : R) : R := x * 180 / PI.

(** [x % m] on floats: the remainder has the sign of [m]. *)
Definition fmod (x m : R) : R := x - m * IZR (Int_part (x / m)).

(** [AVLSystem.calculate_bearing]. *)
Definition calculate_bearing (lat1 lon1 lat2 lon2 : R) : R :=
  let lat1 := radians lat1 in
  let lon1 := radians lon1 in
  let lat2 := radians lat2 in
  let lon2 := radians lon2 in
  let dlon := lon2 - lon1 in
  let y := sin dlon * cos lat2 in
  let x := cos lat1 * sin lat2 - sin lat1 * cos lat2 * cos dlon in
  let bearing := atan2 y x in
  let bearing := degrees bearing in
  fmod (bearing + 360) 360.

(** An entry of [self.previous_positions]. *)
Record previous_position : Type := {
  prev_latitude : R;
  prev_longitude : R;
  prev_timestamp : R
}.

(** [self.previous_positions], keyed by device id. *)
Abbreviation previous_positions := (gmap string previous_position).

(** [x != 0.0]. *)
Definition nonzero (x : R) : bool := if Req_dec_T x 0 then false else true.

Section Estimate.
Context `{Runtime}.

(** The bearing when no previous position is stored: the telemetry's own,
    [0.0] when it is absent or does not convert. *)
Definition gps_bearing (gps : gmap string pyval) : R :=
  match dict_get_none gps "bearing" with
  | PNone => 0
  | v => match py_float v with Ok b => b | Raise _ => 0 end
  end.

(** The body of the [try] of [create_vehicle_position]: the position written
    to the message and the table after the update. *)
Definition position_block (prev : previous_positions) (gps : gmap string pyval) (c : clock)
  : result (Feed.Position * previous_positions) :=
  try! current_lat := py_float (dict_get gps "latitude" (PFloat 0)) in
  try! current_lon := py_float (dict_get gps "longitude" (PFloat 0)) in
  let device_id := py_str (dict_get_none gps "device_id") in
  try! bearing :=
    match prev !! device_id with
    | Some prev_pos =>
        if nonzero current_lat && nonzero current_lon
           && nonzero (prev_latitude prev_pos) && nonzero (prev_longitude prev_pos)
        then Ok (calculate_bearing (prev_latitude prev_pos) (prev_longitude prev_pos)
                                   current_lat current_lon)
        else py_float (dict_get gps "bearing" (PFloat 0))
    | None => Ok (gps_bearing gps)
    end in
  Ok ({| Feed.latitude := current_lat; Feed.longitude := current_lon;
         Feed.bearing := bearing |},
      <[device_id := {| prev_latitude := current_lat;
                        prev_longitude := current_lon;
                        prev_timestamp := time_time c |}]> prev).

(** The [try] with its handler: [ValueError] and [TypeError] zero the three
    position fields and skip the update of the table. *)
Definition estimate (prev : previous_positions) (gps : gmap string pyval) (c : clock)
  : result (Feed.Position * previous_positions) :=
  match position_block prev gps c with
  | Ok r => Ok r
  | Raise ValueError | Raise TypeError =>
      Ok ({| Feed.latitude := 0; Feed.longitude := 0; Feed.bearing := 0 |}, prev)
  | Raise e => Raise e
  end.

End Estimate.

End Heading.

(** ** The three feed builders *)

Module Builder.

Import Feed.

Section Builders.
Context `{Runtime}.

(** [str(gps_data.get('label', gps_data.get('device_id')))]. *)
Definition vehicle_descriptor (gps : gmap string pyval) : VehicleDescriptor :=
  {| id := py_str (dict_get_none gps "device_id");
     label := py_str (dict_get gps "label" (dict_get_none gps "device_id")) |}.

(** The trip descriptor both builders fill from the telemetry; the
    assignment of [direction_id] is the step that may raise. *)
Definition trip_descriptor (gps : gmap string pyval) (start_time : option string)
    (c : clock) : result TripDescriptor :=
  try! direction := py_int (dict_get gps "direction_id" (PInt 0)) in
  try! direction := set_uint32 direction in
  Ok {| trip_id := py_str (dict_get_none gps "trip_id");
        route_id := py_str (dict_get_none gps "route_id");
        direction_id := direction;
        start_time := start_time;
        start_date := strftime_Ymd c |}.

(** [AVLSystem.create_vehicle_position]: the message, or the exception
    raised, and [self.previous_positions] after the call. *)
Definition create_vehicle_position (prev : Heading.previous_positions)
    (gps : gmap string pyval) (c : clock)
  : result FeedMessage * Heading.previous_positions :=
  match (try! hdr := make_header c in
         try! trip := trip_descriptor gps None c in
         Ok (hdr, trip)) with
  | Raise e => (Raise e, prev)
  | Ok (hdr, trip) =>
      match Heading.estimate prev gps c with
      | Raise e => (Raise e, prev)
      | Ok (position, prev') =>
          (try! ts := set_uint64 (int_time c) in
           Ok {| header := hdr;
                 entity := [{|
                   entity_id := py_str (dict_get_none gps "device_id");
                   entity_payload := Vehicle {|
                     vp_trip := trip;
                     vp_position := position;
                     vp_vehicle := vehicle_descriptor gps;
                     vp_timestamp := ts |} |}] |},
           prev')
      end
  end.

(** The conversion of one schedule time of a stop: nothing is written when
    the value is falsy; otherwise [today + " " + value] is parsed, and the
    clock is used when the parse raises [ValueError]. *)
Definition schedule_timestamp (c : clock) (value : pyval) : result (option Z) :=
  if truthy value then
    try! ts := set_int64
      match strptime_timestamp (strftime_Ymd c ++ " " ++ py_str value) with
      | Some parsed => parsed
      | None => int_time c
      end in
    Ok (Some ts)
  else Ok None.

(** The body of [for stop in stops]. *)
Definition add_stop_time_update (c : clock) (acc : list StopTimeUpdate)
    (stop : Schedule.trip_stop) : result (list StopTimeUpdate) :=
  try! sequence := set_uint32 (Schedule.ts_stop_sequence stop) in
  try! arrival := schedule_timestamp c (Schedule.ts_arrival_time stop) in
  try! departure := schedule_timestamp c (Schedule.ts_departure_time stop) in
  Ok (acc ++ [{|
    stop_sequence := sequence;
    stop_id := Schedule.ts_stop_id stop;
    arrival := arrival;
    departure := departure;
    schedule_relationship := 0 |}])%list.

(** [AVLSystem.create_trip_update]. *)
Definition create_trip_update (gps : gmap string pyval) (g : Schedule.gtfs_data)
    (c : clock) : result FeedMessage :=
  try! hdr := make_header c in
  let trip_id := py_str (dict_get_none gps "trip_id") in
  try! trip := trip_descriptor gps (Some (strftime_HMS c)) c in
  try! ts := set_uint64 (int_time c) in
  try! stops := Schedule.get_trip_stops trip_id g in
  try! updates := for_each (add_stop_time_update c) stops [] in
  Ok {| header := hdr;
        entity := [{|
          entity_id := "trip_" ++ trip_id;
          entity_payload := TripUpdateOf {|
            tu_trip := trip;
            tu_vehicle := vehicle_descriptor gps;
            tu_timestamp := ts;
            stop_time_update := updates |} |}] |}.

(** [x = alert_data[key] if key in alert_data else dflt], assigned to a
    string field. *)
Definition text_or (field : option pyval) (dflt : string) : result string :=
  match field with
  | Some v => set_string v
  | None => Ok dflt
  end.

(** [int(time.time()) + alert_data.get('duration', 3600)], assigned to an
    unsigned field: only an [int] duration gives an [int]. *)
Definition period_end (c : clock) (duration : option pyval) : result Z :=
  match default (PInt 3600) duration with
  | PInt d => set_uint64 (int_time c + d)
  | _ => Raise TypeError
  end.

(** [AVLSystem.create_service_alert]. *)
Definition create_service_alert (a : Schedule.alert_data) (c : clock)
  : result FeedMessage :=
  try! hdr := make_header c in
  let alert_id := py_str (default (PStr (uuid4 c)) (Schedule.alert_id a)) in
  try! header_text := text_or (Schedule.alert_header a) "Service Alert" in
  try! description := text_or (Schedule.alert_description a) "No details available" in
  try! period_start := set_uint64 (int_time c) in
  try! period_stop := period_end c (Schedule.alert_duration a) in
  try! informed :=
    match Schedule.alert_affected_entities a with
    | Some entities =>
        for_each (fun acc entity_id =>
                    try! route := set_string entity_id in Ok (acc ++ [route])%list)
                 entities []
    | None => Ok ["all_routes"]
    end in
  try! cause := set_enum valid_cause (default (PInt 1) (Schedule.alert_cause a)) in
  try! effect := set_enum valid_effect (default (PInt 8) (Schedule.alert_effect a)) in
  Ok {| header := hdr;
        entity := [{|
          entity_id := "alert_" ++ alert_id;
          entity_payload := AlertOf {|
            header_text := [header_text];
            description_text := [description];
            active_period := [(period_start, period_stop)];
            informed_entity := informed;
            cause := cause;
            effect := effect |} |}] |}.

End Builders.

End Builder.

(** ** One synthesis cycle: [process_data] *)

Module Pipeline.

(** A trip of the configuration: a dict with [trip_id], [direction_id] and
    [start_time]. *)
Abbreviation trip_config := (gmap string pyval).

(** A route of a vehicle: the code reads its [trips] key. *)
Record route_info : Type := {
  route_trips : option (list trip_config)
}.

(** A vehicle of the configuration: its scalar entries ([device_id],
    [label], ...) and its [routes] key. *)
Record vehicle_info : Type := {
  vehicle_fields : gmap string pyval;
  vehicle_routes : option (gmap string route_info)
}.

(** [self.config]: the code reads its [vehicles] key here. *)
Record config : Type := {
  vehicles : option (gmap string vehicle_info)
}.

(** Why a cycle ended without building anything: the four [return]s of
    [process_data], in source order. *)
Inductive failure : Type :=
  | FetchFailed
  | NoVehicleConfiguration
  | NoTrips
  | NoRouteInformation.

Inductive outcome : Type :=
  | Done
  | Failed (why : failure)
  | Raised (e : exn).

(** What a cycle leaves behind: [self.previous_positions], the messages
    handed to [save_protobuf] with their kind, oldest first, and how the
    cycle ended. *)
Record cycle : Type := {
  positions : Heading.previous_positions;
  saved : list (string * Feed.FeedMessage);
  ended : outcome
}.

(** [trip_start_time <= current_time]: defined between two strings. *)
Definition le_str (v : pyval) (s : string) : result bool :=
  match v with
  | PStr t => Ok (String.leb t s)
  | _ => Raise TypeError
  end.

(** The loop [for trip in route_info.get('trips', [])] with its [break],
    started with [current_trip = current]. *)
Fixpoint scan_trips (trips : list trip_config) (current_time : string)
    (current : option trip_config) : result (option trip_config) :=
  match trips with
  | [] => Ok current
  | trip :: rest =>
      try! started := le_str (dict_get trip "start_time" (PStr "")) current_time in
      if started then scan_trips rest current_time (Some trip) else Ok current
  end.

(** [if current_trip:] on [None] or a dict. *)
Definition trip_found (current : option trip_config) : bool :=
  match current with
  | Some trip => negb (bool_decide (trip = ∅))
  | None => false
  end.

(** The trip the cycle settles on: the one the loop tracked, else the first
    of the list, else none. *)
Definition select_trip (trips : list trip_config) (current_time : string)
  : result (option trip_config) :=
  try! current := scan_trips trips current_time None in
  if trip_found current then Ok current
  else match trips with
       | first :: _ => Ok (Some first)
       | [] => Ok None
       end.

(** [not gtfs_data] on the fetched schedule: [None], or a dict with no
    key. *)
Definition no_schedule (g : option Schedule.gtfs_data) : bool :=
  match g with
  | None => true
  | Some g =>
      match Schedule.routes g, Schedule.trips g, Schedule.stops g,
            Schedule.stop_sequences g, Schedule.alerts g with
      | None, None, None, None, None => true
      | _, _, _, _, _ => false
      end
  end.

(** [not vehicle_info]. *)
Definition no_vehicle (v : vehicle_info) : bool :=
  bool_decide (vehicle_fields v = ∅) &&
  match vehicle_routes v with None => true | Some _ => false end.

Section Cycle.
Context `{Runtime}.

(** [AVLSystem.get_vehicle_info]. *)
Definition get_vehicle_info (cfg : config) (vehicle_number : pyval) : vehicle_info :=
  dict_get (default ∅ (vehicles cfg)) (py_str vehicle_number)
    {| vehicle_fields :=
         <["device_id" := PStr (py_str vehicle_number)]>
           (<["label" := PStr (py_str vehicle_number)]> ∅);
       vehicle_routes := None |}.

(** [fetch_gtfs_static] after the download: the processed tables, [None]
    when the download failed or processing raised. *)
Definition fetch_gtfs_static (raw : option Schedule.raw_tables)
  : option Schedule.gtfs_data :=
  match raw with
  | Some tables =>
      match Schedule.process_gtfs_data tables with
      | Ok processed => Some processed
      | Raise _ => None
      end
  | None => None
  end.

(** The loop over [gtfs_data['alerts']]: each alert is built and saved; an
    exception ends the cycle with what was saved before. *)
Fixpoint save_alerts (alerts : list Schedule.alert_data) (c : clock)
    (saved : list (string * Feed.FeedMessage))
  : list (string * Feed.FeedMessage) * outcome :=
  match alerts with
  | [] => (saved, Done)
  | alert :: rest =>
      match Builder.create_service_alert alert c with
      | Ok service_alert =>
          save_alerts rest c (saved ++ [("service_alert", service_alert)])%list
      | Raise e => (saved, Raised e)
      end
  end.

(** The second half of [process_data], from [gps_data.update] on. *)
Definition build_feeds (prev : Heading.previous_positions) (gps : gmap string pyval)
    (g : Schedule.gtfs_data) (c : clock) : cycle :=
  match Builder.create_vehicle_position prev gps c with
  | (Raise e, prev') => {| positions := prev'; saved := []; ended := Raised e |}
  | (Ok vehicle_position, prev') =>
      let saved1 := [("vehicle_position", vehicle_position)] in
      match Builder.create_trip_update gps g c with
      | Raise e => {| positions := prev'; saved := saved1; ended := Raised e |}
      | Ok trip_update =>
          let saved2 := (saved1 ++ [("trip_update", trip_update)])%list in
          match Schedule.alerts g with
          | Some alerts =>
              let '(saved3, how) := save_alerts alerts c saved2 in
              {| positions := prev'; saved := saved3; ended := how |}
          | None => {| positions := prev'; saved := saved2; ended := Done |}
          end
      end
  end.

(** [AVLSystem.process_data], given what the two fetches returned. *)
Definition process_data (prev : Heading.previous_positions) (cfg : config)
    (gps : gmap string pyval) (gtfs : option Schedule.gtfs_data) (c : clock)
  : cycle :=
  let stop how := {| positions := prev; saved := []; ended := how |} in
  match bool_decide (gps = ∅) || no_schedule gtfs, gtfs with
  | false, Some g =>
      let vehicle_number := dict_get_none gps "device_id" in
      let vehicle := get_vehicle_info cfg vehicle_number in
      if no_vehicle vehicle then stop (Failed NoVehicleConfiguration)
      else
        let route_id := py_str (dict_get_none gps "route_id") in
        match default ∅ (vehicle_routes vehicle) !! route_id with
        | Some route =>
            let trips := default [] (route_trips route) in
            match select_trip trips (strftime_HMS c) with
            | Raise e => stop (Raised e)
            | Ok None => stop (Failed NoTrips)
            | Ok (Some current_trip) =>
                match (try! trip_id := dict_item current_trip "trip_id" in
                       try! direction_id := dict_item current_trip "direction_id" in
                       try! device_id := dict_item (vehicle_fields vehicle) "device_id" in
                       try! label := dict_item (vehicle_fields vehicle) "label" in
                       Ok (<["direction_id" := direction_id]>
                             (<["route_id" := PStr route_id]>
                                (<["trip_id" := trip_id]>
                                   (<["label" := label]>
                                      (<["device_id" := device_id]> gps)))))) with
                | Raise e => stop (Raised e)
                | Ok gps' => build_feeds prev gps' g c
                end
            end
        | None => stop (Failed NoRouteInformation)
        end
  | _, _ => stop (Failed FetchFailed)
  end.

End Cycle.

End Pipeline.

(** ** A runtime for the worked examples

    The theorems below hold for every [Runtime].  The worked examples need
    one to run on: decimal literals for [int(str)] and [float(str)], the
    fixed-width zero-padded form of [strptime] read in UTC, and the enum
    numbers of version 2.0 of the feed schema. *)

Module Examples.

Local Open Scope Z_scope.

(** The value of a decimal digit. *)
Definition digit_of (a : ascii) : option Z :=
  let n := Z.of_nat (nat_of_ascii a) in
  if (48 <=? n) && (n <=? 57) then Some (n - 48) else None.

Fixpoint digits_value (s : string) (acc : Z) : option Z :=
  match s with
  | EmptyString => Some acc
  | String a rest => d ← digit_of a; digits_value rest (10 * acc + d)
  end.

(** One or more decimal digits. *)
Definition unsigned_literal (s : string) : option Z :=
  match s with
  | EmptyString => None
  | _ => digits_value s 0
  end.

(** Decimal digits with an optional sign. *)
Definition int_literal (s : string) : option Z :=
  match s with
  | String "-" rest => Z.opp <$> unsigned_literal rest
  | String "+" rest => unsigned_literal rest
  | _ => unsigned_literal s
  end.

(** [digits] or [digits.digits], with an optional sign. *)
Definition float_literal (s : string) : option R :=
  match index 0 "." s with
  | Some dot =>
      let fraction := substring (S dot) (String.length s - S dot) s in
      whole ← int_literal (substring 0 dot s);
      part ← unsigned_literal fraction;
      let scale := 10 ^ Z.of_nat (String.length fraction) in
      let magnitude := Z.abs whole * scale + part in
      let signed := match s with
                    | String "-" _ => - magnitude
                    | _ => magnitude
                    end in
      Some (IZR signed / IZR scale)%R
  | None => IZR <$> int_literal s
  end.

Definition leap_year (y : Z) : bool :=
  ((y mod 4 =? 0) && negb (y mod 100 =? 0)) || (y mod 400 =? 0).

Definition days_in_month (y m : Z) : Z :=
  if m =? 2 then (if leap_year y then 29 else 28)
  else if (m =? 4) || (m =? 6) || (m =? 9) || (m =? 11) then 30
  else 31.

(** Days from 1970-01-01 to the civil date [y]-[m]-[d]. *)
Definition days_from_civil (y m d : Z) : Z :=
  let y := if m <=? 2 then y - 1 else y in
  let era := y / 400 in
  let yoe := y - era * 400 in
  let doy := (153 * (if 2 <? m then m - 3 else m + 9) + 2) / 5 + d - 1 in
  let doe := yoe * 365 + yoe / 4 - yoe / 100 + doy in
  era * 146097 + doe - 719468.

(** ["YYYYMMDD HH:MM:SS"] to seconds since the epoch, in UTC. *)
Definition strptime_utc (s : string) : option Z :=
  if bool_decide (String.length s = 17%nat
                  ∧ substring 8 1 s = " " ∧ substring 11 1 s = ":"
                  ∧ substring 14 1 s = ":") then
    y ← unsigned_literal (substring 0 4 s);
    m ← unsigned_literal (substring 4 2 s);
    d ← unsigned_literal (substring 6 2 s);
    hh ← unsigned_literal (substring 9 2 s);
    mm ← unsigned_literal (substring 12 2 s);
    ss ← unsigned_literal (substring 15 2 s);
    if (1 <=? y) && (1 <=? m) && (m <=? 12) && (1 <=? d) && (d <=? days_in_month y m)
       && (hh <? 24) && (mm <? 60) && (ss <? 60)
    then Some (days_from_civil y m d * 86400 + hh * 3600 + mm * 60 + ss)
    else None
  else None.

(** No example formats a float, so [str] of a float is a fixed marker. *)
#[export] Instance runtime : Runtime := {|
  int_of_str := int_literal;
  float_of_str := float_literal;
  repr_float := fun _ => "<float>";
  strptime_timestamp := strptime_utc;
  valid_cause := fun z => (1 <=? z) && (z <=? 12);
  valid_effect := fun z => (1 <=? z) && (z <=? 9)
|}.

(** Noon of 15 January 2024, UTC. *)
Definition noon : clock := {|
  time_time := 1705320000;
  strftime_Ymd := "20240115";
  strftime_HMS := "12:00:00";
  uuid4 := "00000000-0000-4000-8000-000000000000"
|}.

(** A trip of the configuration. *)
Definition trip (trip_id start_time : string) : Pipeline.trip_config :=
  <["trip_id" := PStr trip_id]>
    (<["direction_id" := PInt 0]> (<["start_time" := PStr start_time]> ∅)).

Definition three_trips : list Pipeline.trip_config :=
  [trip "T06" "06:00:00"; trip "T09" "09:00:00"; trip "T14" "14:00:00"].

End Examples.

(** * Verification *)

(** ** Trip selection *)

Module TripSelection.

Import Pipeline.

(** A trip of a route configuration carries a [trip_id], and its
    [start_time], when it has one, is a string. *)
Definition well_formed (trip : trip_config) : Prop :=
  is_Some (trip !! "trip_id") ∧
  ∃ start, dict_get trip "start_time" (PStr "") = PStr start.

(** [start_time <= now], compared as strings. *)
Definition started (now : string) (trip : trip_config) : bool :=
  match dict_get trip "start_time" (PStr "") with
  | PStr start => String.leb start now
  | _ => false
  end.

(** The trips scanned before the first one with [start_time > now]. *)
Fixpoint scanned_prefix (now : string) (trips : list trip_config) : list trip_config :=
  match trips with
  | [] => []
  | trip :: rest => if started now trip then trip :: scanned_prefix now rest else []
  end.

(** The selector as the specification words it: the last trip of the
    scanned prefix, else the first trip of the list, else none. *)
Definition selected (trips : list trip_config) (now : string) : option trip_config :=
  match last (scanned_prefix now trips) with
  | Some trip => Some trip
  | None => head trips
  end.

Lemma le_str_started now trip :
  well_formed trip → le_str (dict_get trip "start_time" (PStr "")) now = Ok (started now trip).
Proof.
  intros [_ [start Hstart]]. unfold started. rewrite Hstart. reflexivity.
Qed.

Lemma scan_trips_prefix now trips current :
  Forall well_formed trips →
  scan_trips trips now current
  = Ok (match last (scanned_prefix now trips) with
        | Some trip => Some trip
        | None => current
        end).
Proof.
  intros Hwf. revert current.
  induction Hwf as [|trip rest Htrip _ IH]; intros current; simpl.
  - reflexivity.
  - rewrite (le_str_started now trip Htrip). simpl.
    destruct (started now trip); [|reflexivity].
    rewrite IH, last_cons.
    destruct (last (scanned_prefix now rest)); reflexivity.
Qed.

Lemma scanned_prefix_well_formed now trips :
  Forall well_formed trips → Forall well_formed (scanned_prefix now trips).
Proof.
  induction 1 as [|trip rest Htrip _ IH]; simpl; [constructor|].
  destruct (started now trip); constructor; assumption.
Qed.

Lemma well_formed_found trip : well_formed trip → trip_found (Some trip) = true.
Proof.
  intros [[v Hv] _]. simpl.
  rewrite bool_decide_eq_false_2; [reflexivity|].
  intros ->. rewrite lookup_empty in Hv. discriminate.
Qed.

(** C1. For a route configuration of well-formed trips and a current time
    [now], the selector scans the trips in stored order up to the first one
    with [start_time > now] and returns the last trip of that prefix; when
    the prefix is empty it returns [trips[0]], and it returns [None] exactly
    when the list is empty. *)
Theorem select_trip_scans_prefix (trips : list trip_config) (now : string) :
  Forall well_formed trips →
  select_trip trips now = Ok (selected trips now)
  ∧ (scanned_prefix now trips = [] → selected trips now = head trips)
  ∧ (selected trips now = None ↔ trips = []).
Proof.
  intros Hwf. split; [|split].
  - unfold select_trip, selected.
    rewrite (scan_trips_prefix now trips None Hwf). simpl.
    destruct (last (scanned_prefix now trips)) as [trip|] eqn:Hlast.
    + assert (well_formed trip) as Htrip.
      { pose proof (scanned_prefix_well_formed now trips Hwf) as Hall.
        rewrite Forall_forall in Hall. apply Hall.
        apply last_Some_elem_of in Hlast. exact Hlast. }
      rewrite (well_formed_found trip Htrip). reflexivity.
    + simpl. destruct trips; reflexivity.
  - intros Hprefix. unfold selected. rewrite Hprefix. reflexivity.
  - unfold selected. split.
    + destruct (last (scanned_prefix now trips)); [discriminate|].
      destruct trips; [reflexivity|discriminate].
    + intros ->. reflexivity.
Qed.

(** With start times 06:00, 09:00 and 14:00 the selector returns the 09:00
    trip at 10:00 and falls back to the 06:00 trip at 05:00. *)
Lemma select_trip_three_trips :
  select_trip Examples.three_trips "10:00:00" = Ok (Some (Examples.trip "T09" "09:00:00"))
  ∧ select_trip Examples.three_trips "05:00:00" = Ok (Some (Examples.trip "T06" "06:00:00")).
Proof.
  assert (Forall well_formed Examples.three_trips) as Hwf.
  { repeat constructor; eexists; reflexivity. }
  split.
  - rewrite (proj1 (select_trip_scans_prefix Examples.three_trips "10:00:00" Hwf)).
    reflexivity.
  - rewrite (proj1 (select_trip_scans_prefix Examples.three_trips "05:00:00" Hwf)).
    reflexivity.
Defined.

(** An empty trip list resolves to no trip. *)
Example select_trip_empty now : select_trip [] now = Ok None.
Proof. reflexivity. Qed.

(** Outside well-formed configurations: a trip that is an empty dict is
    tracked by the loop but fails [if current_trip:], and the first trip is
    taken in its place. *)
Example select_trip_empty_dict :
  select_trip [Examples.trip "T06" "06:00:00"; ∅] "10:00:00"
  = Ok (Some (Examples.trip "T06" "06:00:00")).
Proof. reflexivity. Qed.

End TripSelection.

(** ** The schedule index *)

Module ScheduleFacts.

Import Schedule.

Local Open Scope Z_scope.

Lemma dict_get_missing {V} (d : gmap string V) k dflt :
  d !! k = None → dict_get d k dflt = dflt.
Proof. intros Hk. unfold dict_get. rewrite Hk. reflexivity. Qed.

(** [for_each] over a step that never raises is a left fold. *)
Lemma for_each_total {A S} (step : S → A → result S) (f : S → A → S) xs acc :
  (∀ s x, step s x = Ok (f s x)) → for_each step xs acc = Ok (foldl f acc xs).
Proof.
  intros Hstep. revert acc.
  induction xs as [|x xs IH]; intros acc; simpl; [reflexivity|].
  rewrite Hstep. simpl. apply IH.
Qed.

(** When the success of a step depends on the element alone, the loop
    succeeds exactly when every element passes. *)
Lemma for_each_succeeds {A S} (step : S → A → result S) (P : A → Prop) xs acc :
  (∀ s x, P x ↔ ∃ s', step s x = Ok s') →
  (∃ s', for_each step xs acc = Ok s') ↔ Forall P xs.
Proof.
  intros Hstep. revert acc.
  induction xs as [|x xs IH]; intros acc; simpl.
  - split; [constructor|eauto].
  - rewrite Forall_cons. split.
    + intros [s' Hs']. destruct (step acc x) as [acc'|e] eqn:Hx; [|discriminate].
      simpl in Hs'. split.
      * apply (Hstep acc x). eauto.
      * apply (IH acc'). eauto.
    + intros [Hx Hxs]. apply (Hstep acc x) in Hx as [acc' Hx].
      rewrite Hx. simpl. apply IH. exact Hxs.
Qed.

(** *** Sorting *)

Definition by_sequence (a b : stop_seq_rec) : Prop :=
  stop_sequence a ≤ stop_sequence b.

Definition strictly_by_sequence (a b : stop_seq_rec) : Prop :=
  stop_sequence a < stop_sequence b.

Lemma insert_by_sequence_perm x l : insert_by_sequence x l ≡ₚ x :: l.
Proof.
  induction l as [|y l IH]; simpl; [reflexivity|].
  destruct (stop_sequence x <=? stop_sequence y); [reflexivity|].
  rewrite IH. apply Permutation_swap.
Qed.

Lemma sort_by_sequence_perm l : sort_by_sequence l ≡ₚ l.
Proof.
  induction l as [|x l IH]; simpl; [reflexivity|].
  unfold sort_by_sequence in *. simpl.
  rewrite insert_by_sequence_perm, IH. reflexivity.
Qed.

Lemma insert_by_sequence_sorted x l :
  StronglySorted by_sequence l → StronglySorted by_sequence (insert_by_sequence x l).
Proof.
  induction 1 as [|y l Hl IH Hy]; simpl.
  - repeat constructor.
  - destruct (Z.leb_spec (stop_sequence x) (stop_sequence y)) as [Hle|Hgt].
    + constructor; [constructor; assumption|].
      constructor; [exact Hle|].
      eapply Forall_impl; [exact Hy|].
      unfold by_sequence. intros z Hz. lia.
    + constructor; [exact IH|].
      rewrite insert_by_sequence_perm. constructor; [|exact Hy].
      unfold by_sequence. lia.
Qed.

Lemma sort_by_sequence_sorted l : StronglySorted by_sequence (sort_by_sequence l).
Proof.
  induction l as [|x l IH]; simpl; [constructor|].
  apply insert_by_sequence_sorted. exact IH.
Qed.

(** The sort is stable: the rows with a given sequence number keep their
    relative order. *)
Definition with_sequence (k : Z) (l : list stop_seq_rec) : list stop_seq_rec :=
  filter (λ entry, stop_sequence entry = k) l.

Lemma insert_by_sequence_stable k x l :
  with_sequence k (insert_by_sequence x l) = with_sequence k (x :: l).
Proof.
  unfold with_sequence.
  induction l as [|y l IH]; simpl; [reflexivity|].
  destruct (Z.leb_spec (stop_sequence x) (stop_sequence y)) as [Hle|Hgt];
    [reflexivity|].
  rewrite !filter_cons in *. rewrite IH.
  destruct (decide (stop_sequence x = k)), (decide (stop_sequence y = k));
    try reflexivity.
  lia.
Qed.

Lemma sort_by_sequence_stable k l :
  with_sequence k (sort_by_sequence l) = with_sequence k l.
Proof.
  induction l as [|x l IH]; [reflexivity|].
  change (sort_by_sequence (x :: l))
    with (insert_by_sequence x (sort_by_sequence l)).
  rewrite insert_by_sequence_stable. unfold with_sequence in *.
  rewrite !filter_cons, IH. reflexivity.
Qed.

(** *** The join of [get_trip_stops] *)

(** An entry of a stop sequence joined to its stop record; nothing when the
    stop is not in the stops table. *)
Definition joined (stops : gmap string stop_rec) (entry : stop_seq_rec)
  : option trip_stop :=
  stop_info ← stops !! seq_stop_id entry;
  Some {| ts_stop_sequence := stop_sequence entry;
          ts_stop_id := seq_stop_id entry;
          ts_stop_name := stop_name stop_info;
          ts_arrival_time := arrival_time entry;
          ts_departure_time := departure_time entry |}.

Lemma for_each_join_stop g stops entries acc :
  Schedule.stops g = Some stops →
  for_each (join_stop g) entries acc = Ok (acc ++ omap (joined stops) entries)%list.
Proof.
  intros Hstops. revert acc.
  induction entries as [|entry entries IH]; intros acc; simpl.
  - rewrite app_nil_r. reflexivity.
  - unfold join_stop at 1, joined at 1. rewrite Hstops. simpl.
    destruct (stops !! seq_stop_id entry) as [stop_info|]; simpl.
    + rewrite IH, <- app_assoc. reflexivity.
    + apply IH.
Qed.

Lemma get_trip_stops_join g sequences stops trip_id :
  stop_sequences g = Some sequences →
  Schedule.stops g = Some stops →
  get_trip_stops trip_id g
  = Ok (omap (joined stops) (default [] (sequences !! trip_id))).
Proof.
  intros Hsequences Hstops. unfold get_trip_stops. rewrite Hsequences. simpl.
  destruct (sequences !! trip_id) as [entries|]; simpl; [|reflexivity].
  apply (for_each_join_stop g stops entries [] Hstops).
Qed.

Lemma joined_sorted stops entries :
  StronglySorted by_sequence entries →
  StronglySorted (λ a b, ts_stop_sequence a ≤ ts_stop_sequence b)
    (omap (joined stops) entries).
Proof.
  induction 1 as [|entry entries Hsorted IH Hentry]; simpl; [constructor|].
  destruct (joined stops entry) as [stop|] eqn:Hjoin; [|exact IH].
  constructor; [exact IH|].
  apply Forall_forall. intros stop' Hin.
  apply list_elem_of_omap in Hin as (entry' & Hin & Hjoin').
  rewrite Forall_forall in Hentry. specialize (Hentry entry' Hin).
  unfold joined in Hjoin, Hjoin'.
  destruct (stops !! seq_stop_id entry); [|discriminate].
  destruct (stops !! seq_stop_id entry'); [|discriminate].
  simpl in Hjoin, Hjoin'. injection Hjoin as <-. injection Hjoin' as <-.
  exact Hentry.
Qed.

End ScheduleFacts.

Module ScheduleClaims.

Import Schedule ScheduleFacts.

Local Open Scope Z_scope.

(** A conversion that does not raise. *)
Definition converts {A} (r : result A) : Prop := ∃ a, r = Ok a.

Section Index.
Context `{Runtime}.

(** Every numeric field a row carries converts: [direction_id] of a trip,
    [stop_lat] and [stop_lon] of a stop, [stop_sequence] of a stop time. *)
Definition trip_converts (trip : row) : Prop :=
  converts (py_int (dict_get trip "direction_id" (PInt 0))).

Definition stop_converts (stop : row) : Prop :=
  converts (py_float (dict_get stop "stop_lat" (PFloat 0)))
  ∧ converts (py_float (dict_get stop "stop_lon" (PFloat 0))).

Definition stop_time_converts (stop_time : row) : Prop :=
  converts (py_int (dict_get stop_time "stop_sequence" (PInt 0))).

Definition numeric_fields_convert (raw : raw_tables) : Prop :=
  Forall trip_converts (default [] (raw !! "trips"))
  ∧ Forall stop_converts (default [] (raw !! "stops"))
  ∧ Forall stop_time_converts (default [] (raw !! "stop_times")).

Lemma process_table_succeeds {V} (raw : raw_tables) name
    (step : gmap string V → row → result (gmap string V)) (P : row → Prop) :
  (∀ s x, P x ↔ ∃ s', step s x = Ok s') →
  (∃ m, process_table raw name step = Ok m) ↔ Forall P (default [] (raw !! name)).
Proof.
  intros Hstep. unfold process_table.
  destruct (raw !! name) as [rows|]; simpl.
  - apply for_each_succeeds. exact Hstep.
  - split; [constructor|eauto].
Qed.

Lemma process_table_absent {V} (raw : raw_tables) name
    (step : gmap string V → row → result (gmap string V)) :
  raw !! name = None → process_table raw name step = Ok ∅.
Proof. intros Hname. unfold process_table. rewrite Hname. reflexivity. Qed.

Lemma add_trip_succeeds acc trip :
  trip_converts trip ↔ ∃ acc', add_trip acc trip = Ok acc'.
Proof.
  unfold trip_converts, converts, add_trip.
  destruct (py_int _) as [d|e]; simpl; split; eauto.
  - intros [? ?]. discriminate.
  - intros [? ?]. discriminate.
Qed.

Lemma add_stop_succeeds acc stop :
  stop_converts stop ↔ ∃ acc', add_stop acc stop = Ok acc'.
Proof.
  unfold stop_converts, converts, add_stop.
  destruct (py_float (dict_get stop "stop_lat" _)) as [lat|e]; simpl;
    [destruct (py_float (dict_get stop "stop_lon" _)) as [lon|e]; simpl|];
    split; eauto.
  - intros [_ [? ?]]. discriminate.
  - intros [? ?]. discriminate.
  - intros [[? ?] _]. discriminate.
  - intros [? ?]. discriminate.
Qed.

Lemma add_stop_time_succeeds acc stop_time :
  stop_time_converts stop_time ↔ ∃ acc', add_stop_time acc stop_time = Ok acc'.
Proof.
  unfold stop_time_converts, converts, add_stop_time.
  destruct (py_int _) as [d|e]; simpl; split; eauto.
  - intros [? ?]. discriminate.
  - intros [? ?]. discriminate.
Qed.

(** What a successful build returns: the four sub-maps, each the result of
    its table's loop, the stop sequences sorted, and no [alerts] key. *)
Lemma process_gtfs_data_ok raw g :
  process_gtfs_data raw = Ok g →
  ∃ routes trips stops sequences,
    process_table raw "routes" add_route = Ok routes
    ∧ process_table raw "trips" add_trip = Ok trips
    ∧ process_table raw "stops" add_stop = Ok stops
    ∧ process_table raw "stop_times" add_stop_time = Ok sequences
    ∧ g = {| Schedule.routes := Some routes;
             Schedule.trips := Some trips;
             Schedule.stops := Some stops;
             stop_sequences := Some (sort_by_sequence <$> sequences);
             alerts := None |}.
Proof.
  unfold process_gtfs_data. intros Hg.
  destruct (process_table raw "routes" add_route) as [routes|]; [|discriminate].
  destruct (process_table raw "trips" add_trip) as [trips|]; [|discriminate].
  destruct (process_table raw "stops" add_stop) as [stops|]; [|discriminate].
  destruct (process_table raw "stop_times" add_stop_time) as [sequences|];
    [|discriminate].
  simpl in Hg. injection Hg as <-.
  exists routes, trips, stops, sequences. repeat split; reflexivity.
Qed.

(** C4, as the code has it.  After index construction the stop sequence of
    every trip holds the trip's rows, whatever their order in the table,
    sorted ascending by [stop_sequence], and so is what [get_trip_stops]
    returns; rows of one trip with equal sequence numbers are all kept, in
    the order of the table, so the order is not strict. *)
Theorem stop_sequences_sorted (raw : raw_tables) (g : gtfs_data) (trip_id : string) :
  process_gtfs_data raw = Ok g →
  ∃ inserted sequences trip_stops,
    process_table raw "stop_times" add_stop_time = Ok inserted
    ∧ stop_sequences g = Some sequences
    ∧ (∀ entries, sequences !! trip_id = Some entries →
         StronglySorted by_sequence entries
         ∧ ∃ rows, inserted !! trip_id = Some rows
                   ∧ entries ≡ₚ rows
                   ∧ ∀ k, with_sequence k entries = with_sequence k rows)
    ∧ get_trip_stops trip_id g = Ok trip_stops
    ∧ StronglySorted (λ a b, ts_stop_sequence a ≤ ts_stop_sequence b) trip_stops.
Proof.
  intros Hg.
  apply process_gtfs_data_ok in Hg
    as (routes & trips & stops & inserted & _ & _ & _ & Hinserted & ->).
  assert (∀ entries, (sort_by_sequence <$> inserted) !! trip_id = Some entries →
            StronglySorted by_sequence entries
            ∧ ∃ rows, inserted !! trip_id = Some rows
                      ∧ entries ≡ₚ rows
                      ∧ ∀ k, with_sequence k entries = with_sequence k rows)
    as Hsorted.
  { intros entries. rewrite lookup_fmap.
    destruct (inserted !! trip_id) as [rows|]; simpl; [|discriminate].
    intros [= <-]. split; [apply sort_by_sequence_sorted|].
    exists rows. split; [reflexivity|].
    split; [apply sort_by_sequence_perm|].
    intros k. apply sort_by_sequence_stable. }
  eexists _, _, _. split; [exact Hinserted|]. split; [reflexivity|].
  split; [exact Hsorted|]. split.
  - apply get_trip_stops_join; reflexivity.
  - apply joined_sorted.
    destruct ((sort_by_sequence <$> inserted) !! trip_id) as [entries|] eqn:Hentries;
      simpl; [apply Hsorted; reflexivity|constructor].
Qed.

(** C9.  On a built index [get_trip_stops] returns, in the order of the
    trip's stop sequence, each entry joined to its stop record ([joined]:
    sequence, stop id, the stop's name, arrival and departure time), and the
    empty list when the trip is unknown to the index. *)
Theorem get_trip_stops_contract (raw : raw_tables) (g : gtfs_data) (trip_id : string) :
  process_gtfs_data raw = Ok g →
  ∃ sequences stops,
    stop_sequences g = Some sequences
    ∧ Schedule.stops g = Some stops
    ∧ get_trip_stops trip_id g
      = Ok (omap (joined stops) (default [] (sequences !! trip_id)))
    ∧ (sequences !! trip_id = None → get_trip_stops trip_id g = Ok []).
Proof.
  intros Hg.
  apply process_gtfs_data_ok in Hg
    as (routes & trips & stops & sequences & _ & _ & _ & _ & ->).
  eexists _, _. split; [reflexivity|]. split; [reflexivity|].
  assert (∀ m, get_trip_stops trip_id
                 {| Schedule.routes := Some routes; Schedule.trips := Some trips;
                    Schedule.stops := Some stops; stop_sequences := Some m;
                    alerts := None |}
               = Ok (omap (joined stops) (default [] (m !! trip_id)))) as Hjoin.
  { intros m. apply get_trip_stops_join; reflexivity. }
  split; [apply Hjoin|].
  intros Hunknown. rewrite Hjoin, Hunknown. reflexivity.
Qed.

(** C5, as the code has it.  Index construction succeeds exactly when every
    numeric field that a row carries converts (it raises otherwise); a table
    that is absent leaves its sub-map empty, the [calendar] tables are not
    read at all, and a numeric field that a row does not carry takes the
    default [0] or [0.0]. *)
Theorem index_build_tolerance (raw : raw_tables) :
  (numeric_fields_convert raw ↔ ∃ g, process_gtfs_data raw = Ok g)
  ∧ (∀ g, process_gtfs_data raw = Ok g →
       (raw !! "routes" = None → routes g = Some ∅)
       ∧ (raw !! "trips" = None → trips g = Some ∅)
       ∧ (raw !! "stops" = None → stops g = Some ∅)
       ∧ (raw !! "stop_times" = None → stop_sequences g = Some ∅))
  ∧ (∀ rows, process_gtfs_data (<["calendar" := rows]> raw) = process_gtfs_data raw)
  ∧ (∀ acc trip, trip !! "direction_id" = None →
       ∃ t, add_trip acc trip = Ok (<[trip_id t := t]> acc) ∧ direction_id t = 0)
  ∧ (∀ acc stop, stop !! "stop_lat" = None → stop !! "stop_lon" = None →
       ∃ s, add_stop acc stop = Ok (<[stop_id s := s]> acc)
            ∧ stop_lat s = 0%R ∧ stop_lon s = 0%R)
  ∧ (∀ acc stop_time, stop_time !! "stop_sequence" = None →
       ∃ entry, add_stop_time acc stop_time
                = Ok (<[py_str (dict_get stop_time "trip_id" (PStr "")) :=
                         (dict_get acc (py_str (dict_get stop_time "trip_id" (PStr ""))) []
                          ++ [entry])%list]> acc)
                ∧ stop_sequence entry = 0).
Proof.
  split; [|split; [|split; [|split; [|split]]]].
  - unfold numeric_fields_convert.
    rewrite <- (process_table_succeeds raw "trips" add_trip trip_converts
                  add_trip_succeeds).
    rewrite <- (process_table_succeeds raw "stops" add_stop stop_converts
                  add_stop_succeeds).
    rewrite <- (process_table_succeeds raw "stop_times" add_stop_time
                  stop_time_converts add_stop_time_succeeds).
    unfold process_gtfs_data. split.
    + intros ([trips Htrips] & [stops Hstops] & [sequences Hsequences]).
      destruct (process_table raw "routes" add_route) as [routes|e] eqn:Hr.
      * rewrite Htrips, Hstops, Hsequences. simpl. eauto.
      * exfalso. unfold process_table in Hr.
        destruct (raw !! "routes") as [rows|]; [|discriminate].
        rewrite (for_each_total add_route
                   (λ acc route,
                      <[py_str (dict_get route "route_id" (PStr "")) := _]> acc))
          in Hr by reflexivity.
        discriminate.
    + intros [g Hg].
      destruct (process_table raw "routes" add_route); [|discriminate].
      destruct (process_table raw "trips" add_trip); [|discriminate].
      destruct (process_table raw "stops" add_stop); [|discriminate].
      destruct (process_table raw "stop_times" add_stop_time); [|discriminate].
      repeat split; eexists; reflexivity.
  - intros g Hg.
    apply process_gtfs_data_ok in Hg
      as (routes & trips & stops & sequences & Hr & Ht & Hs & Hq & ->). simpl.
    repeat split; intros Habsent.
    + rewrite (process_table_absent _ _ _ Habsent) in Hr. congruence.
    + rewrite (process_table_absent _ _ _ Habsent) in Ht. congruence.
    + rewrite (process_table_absent _ _ _ Habsent) in Hs. congruence.
    + rewrite (process_table_absent _ _ _ Habsent) in Hq.
      injection Hq as <-. rewrite fmap_empty. reflexivity.
  - intros rows. unfold process_gtfs_data, process_table.
    rewrite !lookup_insert_ne by discriminate. reflexivity.
  - intros acc trip Hmissing. unfold add_trip.
    rewrite (dict_get_missing trip "direction_id" _ Hmissing). simpl.
    eexists (Build_trip_rec _ _ _ _ _ _). split; reflexivity.
  - intros acc stop Hlat Hlon. unfold add_stop.
    rewrite (dict_get_missing stop "stop_lat" _ Hlat),
      (dict_get_missing stop "stop_lon" _ Hlon). simpl.
    eexists (Build_stop_rec _ _ _ _ _ _). split; [reflexivity|]. split; reflexivity.
  - intros acc stop_time Hmissing. unfold add_stop_time.
    rewrite (dict_get_missing stop_time "stop_sequence" _ Hmissing). simpl.
    eexists. split; reflexivity.
Qed.

End Index.

End ScheduleClaims.

Module ScheduleExamples.

Import Schedule ScheduleFacts ScheduleClaims Examples.

Local Open Scope Z_scope.

Definition stop_row (stop_id name : string) (lat lon : R) : row :=
  <["stop_id" := PStr stop_id]>
    (<["stop_name" := PStr name]>
       (<["stop_lat" := PFloat lat]> (<["stop_lon" := PFloat lon]> ∅))).

Definition stop_time_row (trip_id stop_id : string) (sequence : Z)
    (arrival departure : string) : row :=
  <["trip_id" := PStr trip_id]>
    (<["stop_id" := PStr stop_id]>
       (<["stop_sequence" := PInt sequence]>
          (<["arrival_time" := PStr arrival]>
             (<["departure_time" := PStr departure]> ∅)))).

(** Two stops, and the two stop times of trip [T] listed last stop first. *)
Definition two_stops : raw_tables :=
  <["stops" := [stop_row "S1" "First" 40 (-75); stop_row "S2" "Second" 41 (-75)]]>
    (<["stop_times" := [stop_time_row "T" "S2" 2 "08:10:00" "08:11:00";
                        stop_time_row "T" "S1" 1 "08:00:00" "08:01:00"]]> ∅).

(** Two stop times of trip [T] with the same sequence number. *)
Definition tied_stop_times : raw_tables :=
  <["stop_times" := [stop_time_row "T" "S1" 1 "08:00:00" "08:01:00";
                     stop_time_row "T" "S2" 1 "08:10:00" "08:11:00"]]> ∅.

(** A trips table whose one row has a word for [direction_id]. *)
Definition worded_direction : raw_tables :=
  <["trips" := [<["trip_id" := PStr "T"]> (<["direction_id" := PStr "outbound"]> ∅)]]> ∅.

(** Rows inserted with sequence 2 then 1 come back from [get_trip_stops] in
    the order 1 then 2. *)
Lemma two_stops_sorted :
  ∃ g trip_stops,
    process_gtfs_data two_stops = Ok g
    ∧ get_trip_stops "T" g = Ok trip_stops
    ∧ ts_stop_sequence <$> trip_stops = [1; 2]
    ∧ ts_stop_id <$> trip_stops = ["S1"; "S2"].
Proof.
  eassert (process_gtfs_data two_stops = Ok _) as Hg by reflexivity.
  destruct (stop_sequences_sorted two_stops _ "T" Hg)
    as (inserted & sequences & trip_stops & _ & _ & _ & Hstops & _).
  eexists _, trip_stops. split; [exact Hg|]. split; [exact Hstops|].
  vm_compute in Hstops. injection Hstops as <-.
  split; reflexivity.
Defined.

(** Two rows of one trip with the same sequence number are both kept, in
    insertion order: the stored sequence is sorted, not strictly sorted. *)
Lemma tied_stop_times_not_strict :
  ∃ g entries,
    process_gtfs_data tied_stop_times = Ok g
    ∧ stop_sequences g ≫= (.!! "T") = Some entries
    ∧ stop_sequence <$> entries = [1; 1]
    ∧ seq_stop_id <$> entries = ["S1"; "S2"]
    ∧ ¬ StronglySorted strictly_by_sequence entries.
Proof.
  eexists _, _. split; [reflexivity|]. split; [reflexivity|].
  split; [reflexivity|]. split; [reflexivity|].
  intros Hstrict. apply StronglySorted_cons in Hstrict as [Hfirst _].
  apply Forall_cons in Hfirst as [Hlt _].
  unfold strictly_by_sequence in Hlt. simpl in Hlt. lia.
Qed.

(** A trip whose [direction_id] is a word makes index construction raise,
    and the schedule fetch that wraps it returns nothing. *)
Lemma worded_direction_raises :
  process_gtfs_data worded_direction = Raise ValueError
  ∧ Pipeline.fetch_gtfs_static (Some worded_direction) = None.
Proof. split; reflexivity. Qed.

(** The stops of trip [T] joined to their names, and no stop for a trip the
    index does not know. *)
Lemma two_stops_joined :
  ∃ g trip_stops,
    process_gtfs_data two_stops = Ok g
    ∧ get_trip_stops "T" g = Ok trip_stops
    ∧ ts_stop_name <$> trip_stops = [PStr "First"; PStr "Second"]
    ∧ ts_arrival_time <$> trip_stops = [PStr "08:00:00"; PStr "08:10:00"]
    ∧ get_trip_stops "unknown" g = Ok [].
Proof.
  eassert (process_gtfs_data two_stops = Ok _) as Hg by reflexivity.
  destruct (get_trip_stops_contract two_stops _ "unknown" Hg)
    as (sequences & stops & Hsequences & _ & _ & Hunknown).
  destruct (get_trip_stops_contract two_stops _ "T" Hg)
    as (sequences' & stops' & Hsequences' & Hstops' & Hjoin & _).
  eexists _, _. split; [exact Hg|]. split; [exact Hjoin|].
  injection Hsequences as <-. injection Hsequences' as <-. injection Hstops' as <-.
  split; [reflexivity|]. split; [reflexivity|].
  apply Hunknown. reflexivity.
Defined.

End ScheduleExamples.

(** ** Heading estimation *)

Module HeadingClaims.

Import Heading.

Local Open Scope R_scope.



Lemma nonzero_true x : nonzero x = true ↔ x ≠ 0.
Proof. unfold nonzero. destruct (Req_dec_T x 0); split; congruence. Qed.


Section Claims.
Context `{Runtime}.

(** The device the call is about: [str(gps_data.get('device_id'))]. *)
Definition device_of (gps : gmap string pyval) : string :=
  py_str (dict_get_none gps "device_id").

(** The fallback bearing as the specification words it: the telemetry's
    bearing parsed as a float, [0.0] when it is absent or does not parse. *)
Definition fallback_bearing (gps : gmap string pyval) : R :=
  match gps !! "bearing" with
  | Some b => match py_float b with Ok parsed => parsed | Raise _ => 0 end
  | None => 0
  end.

(** The code's guard: all four coordinates differ from [0.0]. *)
Definition all_nonzero (previous : previous_position) (lat lon : R) : bool :=
  nonzero lat && nonzero lon
  && nonzero (prev_latitude previous) && nonzero (prev_longitude previous).


(** The bearing the call settles on, by the code's guard. *)
Definition settled_bearing (prev : previous_positions) (gps : gmap string pyval)
    (lat lon : R) : R :=
  match prev !! device_of gps with
  | Some previous =>
      if all_nonzero previous lat lon
      then calculate_bearing (prev_latitude previous) (prev_longitude previous) lat lon
      else fallback_bearing gps
  | None => fallback_bearing gps
  end.

(** The bearing lookup of the call raises: a previous position is stored,
    the guard fails and the telemetry's bearing is there but does not
    convert. *)
Definition bearing_raises (prev : previous_positions) (gps : gmap string pyval)
    (lat lon : R) : Prop :=
  ∃ previous e,
    prev !! device_of gps = Some previous
    ∧ all_nonzero previous lat lon = false
    ∧ py_float (dict_get gps "bearing" (PFloat 0)) = Raise e.

Lemma py_float_raises v e : py_float v = Raise e → e = ValueError ∨ e = TypeError.
Proof.
  destruct v as [|z|r|s]; simpl; try discriminate.
  - intros [= <-]. right. reflexivity.
  - destruct (float_of_str s); [discriminate|]. intros [= <-]. left. reflexivity.
Qed.

Lemma gps_bearing_fallback gps : gps_bearing gps = fallback_bearing gps.
Proof.
  unfold gps_bearing, fallback_bearing, dict_get_none, dict_get.
  destruct (gps !! "bearing") as [[|z|r|s]|]; reflexivity.
Qed.

Lemma bearing_default_fallback gps b :
  py_float (dict_get gps "bearing" (PFloat 0)) = Ok b → fallback_bearing gps = b.
Proof.
  unfold fallback_bearing, dict_get.
  destruct (gps !! "bearing") as [v|]; simpl.
  - intros ->. reflexivity.
  - intros [= <-]. reflexivity.
Qed.

Lemma bearing_raise_fallback gps e :
  py_float (dict_get gps "bearing" (PFloat 0)) = Raise e → fallback_bearing gps = 0.
Proof.
  unfold fallback_bearing, dict_get.
  destruct (gps !! "bearing") as [v|]; simpl.
  - intros ->. reflexivity.
  - discriminate.
Qed.

(** The heading estimation, case by case, for coordinates that convert. *)
Lemma estimate_cases prev gps c lat lon :
  py_float (dict_get gps "latitude" (PFloat 0)) = Ok lat →
  py_float (dict_get gps "longitude" (PFloat 0)) = Ok lon →
  (¬ bearing_raises prev gps lat lon ∧
   estimate prev gps c
   = Ok ({| Feed.latitude := lat; Feed.longitude := lon;
            Feed.bearing := settled_bearing prev gps lat lon |},
         <[device_of gps := {| prev_latitude := lat; prev_longitude := lon;
                               prev_timestamp := time_time c |}]> prev))
  ∨ (bearing_raises prev gps lat lon ∧
     settled_bearing prev gps lat lon = 0 ∧
     estimate prev gps c
     = Ok ({| Feed.latitude := 0; Feed.longitude := 0; Feed.bearing := 0 |}, prev)).
Proof.
  intros Hlat Hlon.
  unfold estimate, position_block, settled_bearing, bearing_raises.
  rewrite Hlat, Hlon. simpl. fold (device_of gps).
  destruct (prev !! device_of gps) as [previous|] eqn:Hprev.
  - fold (all_nonzero previous lat lon).
    destruct (all_nonzero previous lat lon) eqn:Hguard.
    + left. simpl. split; [|reflexivity].
      intros (previous' & e & [= <-] & Hfalse & _). congruence.
    + destruct (py_float (dict_get gps "bearing" (PFloat 0))) as [b|e] eqn:Hb.
      * left. simpl. rewrite (bearing_default_fallback gps b Hb).
        split; [|reflexivity].
        intros (previous' & e & _ & _ & Hraise). discriminate.
      * right. split; [eauto|]. split; [apply (bearing_raise_fallback gps e Hb)|].
        simpl. destruct (py_float_raises _ _ Hb) as [-> | ->]; reflexivity.
  - left. simpl. rewrite gps_bearing_fallback. split; [|reflexivity].
    intros (previous' & e & Hsome & _). discriminate.
Qed.






End Claims.

End HeadingClaims.

(** ** Reading the clock *)

Module ClockFacts.

Local Open Scope R_scope.

Lemma Int_part_IZR z : Int_part (IZR z) = z.
Proof. symmetry. apply Int_part_spec. lra. Qed.

Lemma trunc_IZR z : trunc (IZR z) = z.
Proof.
  unfold trunc. destruct (Rle_dec 0 (IZR z)) as [_|_].
  - apply Int_part_IZR.
  - rewrite <- opp_IZR, Int_part_IZR. lia.
Qed.

Lemma int_time_noon : int_time Examples.noon = 1705320000%Z.
Proof. unfold int_time. simpl. apply trunc_IZR. Qed.

Lemma make_header_noon :
  Feed.make_header Examples.noon
  = Ok {| Feed.gtfs_realtime_version := Some "2.0";
          Feed.timestamp := Some 1705320000%Z |}.
Proof. unfold Feed.make_header. rewrite int_time_noon. reflexivity. Qed.

End ClockFacts.

Module HeadingExamples.

Import Heading HeadingClaims Examples.

Local Open Scope R_scope.

(** A fix due north of the previous one, on the same meridian, gives the
    bearing 0. *)
Lemma calculate_bearing_due_north lat1 lat2 lon :
  0 < lat2 - lat1 < 180 → calculate_bearing lat1 lon lat2 lon = 0.
Proof.
  intros Hnorth. unfold calculate_bearing, radians.
  replace (lon * PI / 180 - lon * PI / 180) with 0 by lra.
  rewrite sin_0, cos_0, Rmult_0_l, Rmult_1_r.
  replace (cos (lat1 * PI / 180) * sin (lat2 * PI / 180)
           - sin (lat1 * PI / 180) * cos (lat2 * PI / 180))
    with (sin (lat2 * PI / 180 - lat1 * PI / 180)) by (rewrite sin_minus; lra).
  assert (0 < sin (lat2 * PI / 180 - lat1 * PI / 180)) as Hx.
  { pose proof PI_RGT_0 as Hpi. apply sin_gt_0.
    - replace (lat2 * PI / 180 - lat1 * PI / 180)
        with ((lat2 - lat1) * (PI / 180)) by lra.
      apply Rmult_lt_0_compat; lra.
    - replace (lat2 * PI / 180 - lat1 * PI / 180)
        with ((lat2 - lat1) * (PI / 180)) by lra.
      replace PI with (180 * (PI / 180)) at 2 by lra.
      apply Rmult_lt_compat_r; lra. }
  unfold atan2. destruct (Rlt_dec 0 _) as [_|Hno]; [|contradiction].
  unfold Rdiv at 1. rewrite Rmult_0_l, atan_0.
  unfold degrees, fmod.
  replace ((0 * 180 / PI + 360) / 360) with (IZR 1)
    by (pose proof PI_RGT_0; field; lra).
  rewrite ClockFacts.Int_part_IZR. pose proof PI_RGT_0. field. lra.
Qed.

Definition fix_at (lat lon : R) : previous_position :=
  {| prev_latitude := lat; prev_longitude := lon; prev_timestamp := 1705319970 |}.

Definition telemetry (lat lon : pyval) : gmap string pyval :=
  <["device_id" := PStr "bus"]> (<["latitude" := lat]> (<["longitude" := lon]> ∅)).





(** The telemetry of the second call: a real fix and a GPS bearing. *)
Definition real_fix : gmap string pyval :=
  <["bearing" := PFloat 90]> (telemetry (PFloat 40) (PFloat (-75))).



End HeadingExamples.

(** ** The feed builders *)

Module FeedClaims.

Import Feed Builder.

Local Open Scope Z_scope.

Inductive kind : Type :=
  | VehiclePositionKind
  | TripUpdateKind
  | ServiceAlertKind.

Definition kind_of (p : payload) : kind :=
  match p with
  | Vehicle _ => VehiclePositionKind
  | TripUpdateOf _ => TripUpdateKind
  | AlertOf _ => ServiceAlertKind
  end.

(** The structural invariant of a feed message of kind [k]: version "2.0",
    a timestamp, exactly one entity, of that kind. *)
Definition feed_invariant (k : kind) (msg : FeedMessage) : Prop :=
  gtfs_realtime_version (header msg) = Some "2.0"
  ∧ is_Some (timestamp (header msg))
  ∧ ∃ e, entity msg = [e] ∧ kind_of (entity_payload e) = k.

(** The trip update a message carries as its one entity. *)
Definition trip_update_of (msg : FeedMessage) : option TripUpdate :=
  match entity msg with
  | [e] => match entity_payload e with
           | TripUpdateOf t => Some t
           | _ => None
           end
  | _ => None
  end.

Lemma set_uint32_ok z z' : set_uint32 z = Ok z' ↔ z' = z ∧ 0 ≤ z < 2 ^ 32.
Proof.
  unfold set_uint32.
  destruct (Z.leb_spec 0 z), (Z.ltb_spec z (2 ^ 32)); simpl; split;
    try (intros [= <-]; split; [reflexivity|lia]);
    try discriminate; try (intros [-> ?]; reflexivity || lia).
Qed.

Lemma set_uint64_ok z z' : set_uint64 z = Ok z' ↔ z' = z ∧ 0 ≤ z < 2 ^ 64.
Proof.
  unfold set_uint64.
  destruct (Z.leb_spec 0 z), (Z.ltb_spec z (2 ^ 64)); simpl; split;
    try (intros [= <-]; split; [reflexivity|lia]);
    try discriminate; try (intros [-> ?]; reflexivity || lia).
Qed.

Lemma set_int64_ok z z' : set_int64 z = Ok z' ↔ z' = z ∧ - 2 ^ 63 ≤ z < 2 ^ 63.
Proof.
  unfold set_int64.
  destruct (Z.leb_spec (- 2 ^ 63) z), (Z.ltb_spec z (2 ^ 63)); simpl; split;
    try (intros [= <-]; split; [reflexivity|lia]);
    try discriminate; try (intros [-> ?]; reflexivity || lia).
Qed.

Lemma make_header_ok c hdr :
  make_header c = Ok hdr →
  hdr = {| gtfs_realtime_version := Some "2.0"; timestamp := Some (int_time c) |}.
Proof.
  unfold make_header.
  destruct (set_uint64 (int_time c)) as [ts|] eqn:Hts; simpl; [|discriminate].
  apply set_uint64_ok in Hts as [-> _]. intros [= <-]. reflexivity.
Qed.

Section Builders.
Context `{Runtime}.

(** The heading estimation always comes back: its handler catches every
    exception a conversion raises. *)
Lemma estimate_total prev gps c : ∃ r, Heading.estimate prev gps c = Ok r.
Proof.
  unfold Heading.estimate, Heading.position_block.
  destruct (py_float (dict_get gps "latitude" (PFloat 0))) as [lat|e] eqn:Hlat; simpl.
  - destruct (py_float (dict_get gps "longitude" (PFloat 0))) as [lon|e] eqn:Hlon; simpl.
    + destruct (prev !! py_str (dict_get_none gps "device_id")) as [previous|].
      * destruct (_ && _); simpl; [eauto|].
        destruct (py_float (dict_get gps "bearing" (PFloat 0))) as [b|e] eqn:Hb;
          simpl; [eauto|].
        destruct (HeadingClaims.py_float_raises _ _ Hb) as [-> | ->]; eauto.
      * simpl. eauto.
    + destruct (HeadingClaims.py_float_raises _ _ Hlon) as [-> | ->]; eauto.
  - destruct (HeadingClaims.py_float_raises _ _ Hlat) as [-> | ->]; eauto.
Qed.

(** Peels the successful [try!] steps off a hypothesis [H : ... = Ok _]. *)
Ltac bind_ok H :=
  repeat match type of H with
         | bind ?m _ = Ok _ =>
             let E := fresh "Hstep" in
             destruct m eqn:E; simpl in H; [|discriminate H]
         end.

Lemma vehicle_position_invariant prev gps c msg prev' :
  create_vehicle_position prev gps c = (Ok msg, prev') →
  feed_invariant VehiclePositionKind msg.
Proof.
  unfold create_vehicle_position.
  destruct (make_header c) as [hdr|] eqn:Hhdr; simpl; [|discriminate].
  destruct (trip_descriptor gps None c) as [trip|]; simpl; [|discriminate].
  destruct (Heading.estimate prev gps c) as [[position table]|]; [|discriminate].
  destruct (set_uint64 (int_time c)) as [ts|]; simpl; [|discriminate].
  intros [= <- _]. apply make_header_ok in Hhdr as ->.
  unfold feed_invariant. simpl. eauto 6.
Qed.

Lemma trip_update_invariant gps g c msg :
  create_trip_update gps g c = Ok msg → feed_invariant TripUpdateKind msg.
Proof.
  unfold create_trip_update. intros Hmsg. bind_ok Hmsg.
  injection Hmsg as <-.
  match goal with Hhdr : make_header c = Ok _ |- _ =>
    apply make_header_ok in Hhdr as -> end.
  unfold feed_invariant. simpl. eauto 6.
Qed.

Lemma service_alert_invariant a c msg :
  create_service_alert a c = Ok msg → feed_invariant ServiceAlertKind msg.
Proof.
  unfold create_service_alert. intros Hmsg. bind_ok Hmsg.
  injection Hmsg as <-.
  match goal with Hhdr : make_header c = Ok _ |- _ =>
    apply make_header_ok in Hhdr as -> end.
  unfold feed_invariant. simpl. eauto 6.
Qed.

(** C7.  A message returned by any of the three builders has a header with
    version "2.0" and a timestamp, and exactly one entity, of the builder's
    kind. *)
Theorem feed_message_invariant :
  (∀ prev gps c msg prev',
     create_vehicle_position prev gps c = (Ok msg, prev') →
     feed_invariant VehiclePositionKind msg)
  ∧ (∀ gps g c msg,
       create_trip_update gps g c = Ok msg → feed_invariant TripUpdateKind msg)
  ∧ (∀ a c msg,
       create_service_alert a c = Ok msg → feed_invariant ServiceAlertKind msg).
Proof.
  split; [|split].
  - apply vehicle_position_invariant.
  - apply trip_update_invariant.
  - apply service_alert_invariant.
Qed.

(** *** Stop-time updates *)

(** A schedule time of a stop as a timestamp: unset when the value is
    falsy; otherwise today's date combined with the value, or the clock
    when the combination does not parse. *)
Definition scheduled (c : clock) (value : pyval) : option Z :=
  if truthy value then
    Some (default (int_time c)
            (strptime_timestamp (strftime_Ymd c ++ " " ++ py_str value)))
  else None.

(** The stop-time update of a stop. *)
Definition scheduled_update (c : clock) (stop : Schedule.trip_stop) : StopTimeUpdate :=
  {| stop_sequence := Schedule.ts_stop_sequence stop;
     stop_id := Schedule.ts_stop_id stop;
     arrival := scheduled c (Schedule.ts_arrival_time stop);
     departure := scheduled c (Schedule.ts_departure_time stop);
     schedule_relationship := 0 |}.

(** The numbers of a stop fit their fields. *)
Definition time_fits (t : option Z) : Prop :=
  match t with
  | Some z => - 2 ^ 63 ≤ z < 2 ^ 63
  | None => True
  end.

Definition stop_fits (c : clock) (stop : Schedule.trip_stop) : Prop :=
  0 ≤ Schedule.ts_stop_sequence stop < 2 ^ 32
  ∧ time_fits (scheduled c (Schedule.ts_arrival_time stop))
  ∧ time_fits (scheduled c (Schedule.ts_departure_time stop)).

Lemma schedule_timestamp_ok c value t :
  schedule_timestamp c value = Ok t ↔ t = scheduled c value ∧ time_fits (scheduled c value).
Proof.
  unfold schedule_timestamp, scheduled.
  destruct (truthy value); simpl.
  - destruct (strptime_timestamp _) as [parsed|]; simpl.
    + destruct (set_int64 parsed) as [ts|] eqn:Hts; simpl.
      * apply set_int64_ok in Hts as [-> Hfit]. split.
        -- intros [= <-]. split; [reflexivity|exact Hfit].
        -- intros [-> _]. reflexivity.
      * split; [discriminate|]. intros [_ Hfit].
        assert (set_int64 parsed = Ok parsed) as Hok
          by (apply set_int64_ok; split; [reflexivity|exact Hfit]).
        congruence.
    + destruct (set_int64 (int_time c)) as [ts|] eqn:Hts; simpl.
      * apply set_int64_ok in Hts as [-> Hfit]. split.
        -- intros [= <-]. split; [reflexivity|exact Hfit].
        -- intros [-> _]. reflexivity.
      * split; [discriminate|]. intros [_ Hfit].
        assert (set_int64 (int_time c) = Ok (int_time c)) as Hok
          by (apply set_int64_ok; split; [reflexivity|exact Hfit]).
        congruence.
  - split.
    + intros [= <-]. split; [reflexivity|exact I].
    + intros [-> _]. reflexivity.
Qed.

Lemma add_stop_time_update_ok c acc stop updates :
  add_stop_time_update c acc stop = Ok updates ↔
  updates = (acc ++ [scheduled_update c stop])%list ∧ stop_fits c stop.
Proof.
  unfold add_stop_time_update, stop_fits, scheduled_update.
  destruct (set_uint32 (Schedule.ts_stop_sequence stop)) as [sequence|] eqn:Hseq;
    simpl.
  - apply set_uint32_ok in Hseq as [-> Hfit].
    destruct (schedule_timestamp c (Schedule.ts_arrival_time stop))
      as [arrival|] eqn:Harrival; simpl.
    + apply schedule_timestamp_ok in Harrival as [-> Harrival].
      destruct (schedule_timestamp c (Schedule.ts_departure_time stop))
        as [departure|] eqn:Hdeparture; simpl.
      * apply schedule_timestamp_ok in Hdeparture as [-> Hdeparture].
        split; [intros [= <-]; auto|intros [-> _]; reflexivity].
      * split; [discriminate|]. intros (_ & _ & _ & Hbad).
        assert (schedule_timestamp c (Schedule.ts_departure_time stop)
                = Ok (scheduled c (Schedule.ts_departure_time stop))) as Hok
          by (apply schedule_timestamp_ok; auto).
        congruence.
    + split; [discriminate|]. intros (_ & _ & Hbad & _).
      assert (schedule_timestamp c (Schedule.ts_arrival_time stop)
              = Ok (scheduled c (Schedule.ts_arrival_time stop))) as Hok
        by (apply schedule_timestamp_ok; auto).
      congruence.
  - split; [discriminate|]. intros (_ & Hfit & _).
    assert (set_uint32 (Schedule.ts_stop_sequence stop)
            = Ok (Schedule.ts_stop_sequence stop)) as Hok
      by (apply set_uint32_ok; auto).
    congruence.
Qed.

Lemma stop_time_updates_ok c stops acc updates :
  for_each (add_stop_time_update c) stops acc = Ok updates ↔
  updates = (acc ++ map (scheduled_update c) stops)%list ∧ Forall (stop_fits c) stops.
Proof.
  revert acc. induction stops as [|stop stops IH]; intros acc; simpl.
  - rewrite app_nil_r. split.
    + intros [= <-]. split; [reflexivity|constructor].
    + intros [-> _]. reflexivity.
  - destruct (add_stop_time_update c acc stop) as [acc'|e] eqn:Hstop; simpl.
    + apply add_stop_time_update_ok in Hstop as [-> Hfit].
      rewrite IH, <- app_assoc. simpl. rewrite Forall_cons. tauto.
    + split; [discriminate|]. intros [_ Hall]. apply Forall_cons in Hall as [Hfit _].
      assert (add_stop_time_update c acc stop
              = Ok (acc ++ [scheduled_update c stop])%list) as Hok
        by (apply add_stop_time_update_ok; auto).
      congruence.
Qed.

(** What a stop-time update carries for its stop. *)
Definition update_of_stop (c : clock) (stop : Schedule.trip_stop) (u : StopTimeUpdate)
  : Prop :=
  stop_sequence u = Schedule.ts_stop_sequence stop
  ∧ stop_id u = Schedule.ts_stop_id stop
  ∧ schedule_relationship u = 0
  ∧ arrival u = scheduled c (Schedule.ts_arrival_time stop)
  ∧ departure u = scheduled c (Schedule.ts_departure_time stop).

Lemma scheduled_updates c stops :
  Forall2 (update_of_stop c) stops (map (scheduled_update c) stops).
Proof.
  induction stops as [|stop stops IH]; simpl; constructor; [|exact IH].
  unfold update_of_stop. simpl. tauto.
Qed.

(** C6, as the code has it.  A trip update that is built carries, for every
    stop of [get_trip_stops(trip_id)] and in that order, one stop-time
    update with the stop's sequence and id and [schedule_relationship]
    [0]; its arrival (departure) is unset when the stop's arrival
    (departure) time is empty or otherwise falsy, is the timestamp of
    today's date combined with that time when the combination parses, and
    is the clock when it does not.  Whether the update is built does not
    depend on any time parsing: it is built exactly when the header and the
    trip descriptor are, [get_trip_stops] returns, and the numbers fit their
    fields. *)
Theorem trip_update_stop_times gps g c :
  (∀ msg, create_trip_update gps g c = Ok msg →
     ∃ stops t,
       Schedule.get_trip_stops (py_str (dict_get_none gps "trip_id")) g = Ok stops
       ∧ trip_update_of msg = Some t
       ∧ Forall2 (update_of_stop c) stops (stop_time_update t))
  ∧ ((∃ msg, create_trip_update gps g c = Ok msg) ↔
     (∃ hdr, make_header c = Ok hdr)
     ∧ (∃ trip, trip_descriptor gps (Some (strftime_HMS c)) c = Ok trip)
     ∧ ∃ stops,
         Schedule.get_trip_stops (py_str (dict_get_none gps "trip_id")) g = Ok stops
         ∧ Forall (stop_fits c) stops)
  ∧ (∀ value,
       (truthy value = false → scheduled c value = None)
       ∧ (∀ parsed, truthy value = true →
            strptime_timestamp (strftime_Ymd c ++ " " ++ py_str value) = Some parsed →
            scheduled c value = Some parsed)
       ∧ (truthy value = true →
          strptime_timestamp (strftime_Ymd c ++ " " ++ py_str value) = None →
          scheduled c value = Some (int_time c))).
Proof.
  split; [|split].
  - unfold create_trip_update. intros msg Hmsg. bind_ok Hmsg.
    injection Hmsg as <-.
    match goal with Hupdates : for_each _ _ _ = Ok _ |- _ =>
      apply stop_time_updates_ok in Hupdates as [-> _] end.
    eexists _, _. split; [reflexivity|]. split; [reflexivity|].
    simpl. apply scheduled_updates.
  - unfold create_trip_update. split.
    + intros [msg Hmsg]. bind_ok Hmsg.
      match goal with Hupdates : for_each _ _ _ = Ok _ |- _ =>
        apply stop_time_updates_ok in Hupdates as [_ Hfit] end.
      eauto 8.
    + intros ([hdr Hhdr] & [trip Htrip] & stops & Hstops & Hfit).
      rewrite Hhdr. simpl. rewrite Htrip. simpl.
      assert (set_uint64 (int_time c) = Ok (int_time c)) as ->.
      { unfold make_header in Hhdr.
        destruct (set_uint64 (int_time c)) as [ts|] eqn:Hts; [|discriminate].
        apply set_uint64_ok in Hts as [-> _]. reflexivity. }
      simpl. rewrite Hstops. simpl.
      assert (for_each (add_stop_time_update c) stops []
              = Ok ([] ++ map (scheduled_update c) stops)%list) as ->
        by (apply stop_time_updates_ok; auto).
      simpl. eauto.
  - intros value. unfold scheduled. split; [|split].
    + intros ->. reflexivity.
    + intros parsed -> ->. reflexivity.
    + intros -> ->. reflexivity.
Qed.

End Builders.

End FeedClaims.

Module FeedExamples.

Import Feed Builder FeedClaims Examples ScheduleExamples.

Local Open Scope Z_scope.

(** The telemetry of the bus once the cycle has resolved its trip. *)
Definition resolved : gmap string pyval :=
  <["device_id" := PStr "bus"]>
    (<["label" := PStr "Bus 1"]>
       (<["trip_id" := PStr "T"]>
          (<["route_id" := PStr "R1"]>
             (<["direction_id" := PInt 0]>
                (<["latitude" := PFloat 40]> (<["longitude" := PFloat (-75)]> ∅)))))).

(** Trip [T] calls at [S1] at 08:00 and at [S2] at an hour that does not
    exist. *)
Definition timed_stops : Schedule.raw_tables :=
  <["stops" := [stop_row "S1" "First" 40 (-75); stop_row "S2" "Second" 41 (-75)]]>
    (<["stop_times" := [stop_time_row "T" "S1" 1 "08:00:00" "08:01:00";
                        stop_time_row "T" "S2" 2 "25:10:00" "08:11:00"]]> ∅).

(** Trip [T] calls at [S1]; the stop times table has no time columns. *)
Definition untimed_stop : Schedule.raw_tables :=
  <["stops" := [stop_row "S1" "First" 40 (-75)]]>
    (<["stop_times" := [<["trip_id" := PStr "T"]>
                          (<["stop_id" := PStr "S1"]>
                             (<["stop_sequence" := PInt 1]> ∅))]]> ∅).

Lemma scheduled_noon_parsed value parsed :
  truthy value = true →
  strptime_timestamp (strftime_Ymd noon ++ " " ++ py_str value) = Some parsed →
  scheduled noon value = Some parsed.
Proof. intros Htrue Hparsed. unfold scheduled. rewrite Htrue, Hparsed. reflexivity. Qed.

Lemma scheduled_noon_unparsed value :
  truthy value = true →
  strptime_timestamp (strftime_Ymd noon ++ " " ++ py_str value) = None →
  scheduled noon value = Some 1705320000.
Proof.
  intros Htrue Hparsed. unfold scheduled.
  rewrite Htrue, Hparsed, ClockFacts.int_time_noon. reflexivity.
Qed.

(** At noon of 15 January 2024 the 08:00 arrival becomes that day's 08:00
    and the arrival at hour 25 becomes the clock. *)
Lemma timed_stops_update :
  ∃ g msg t,
    Schedule.process_gtfs_data timed_stops = Ok g
    ∧ create_trip_update resolved g noon = Ok msg
    ∧ trip_update_of msg = Some t
    ∧ stop_id <$> stop_time_update t = ["S1"; "S2"]
    ∧ arrival <$> stop_time_update t = [Some 1705305600; Some 1705320000]
    ∧ departure <$> stop_time_update t = [Some 1705305660; Some 1705306260].
Proof.
  eassert (Schedule.process_gtfs_data timed_stops = Ok _) as Hg by reflexivity.
  match type of Hg with _ = Ok ?g => pose (index := g) end.
  eassert (Schedule.get_trip_stops "T" index = Ok _) as Hstops by reflexivity.
  destruct (trip_update_stop_times resolved index noon) as (Hcarries & Hbuilt & _).
  destruct (proj2 Hbuilt) as [msg Hmsg].
  { split; [rewrite ClockFacts.make_header_noon; eauto|].
    split; [eexists; reflexivity|].
    eexists. split; [exact Hstops|].
    apply Forall_cons_2; [|apply Forall_cons_2; [|apply Forall_nil_2]];
      (split; [simpl; lia|split]).
    - rewrite (scheduled_noon_parsed _ 1705305600) by reflexivity. simpl. lia.
    - rewrite (scheduled_noon_parsed _ 1705305660) by reflexivity. simpl. lia.
    - rewrite scheduled_noon_unparsed by reflexivity. simpl. lia.
    - rewrite (scheduled_noon_parsed _ 1705306260) by reflexivity. simpl. lia. }
  destruct (Hcarries msg Hmsg) as (stops & t & Hstops' & Ht & Hupdates).
  exists index, msg, t. split; [exact Hg|]. split; [exact Hmsg|]. split; [exact Ht|].
  change (py_str (dict_get_none resolved "trip_id")) with "T" in Hstops'.
  rewrite Hstops in Hstops'. injection Hstops' as <-.
  apply Forall2_cons_inv_l in Hupdates
    as (u1 & rest & (_ & Hid1 & _ & Ha1 & Hd1) & Hupdates & ->).
  apply Forall2_cons_inv_l in Hupdates
    as (u2 & rest' & (_ & Hid2 & _ & Ha2 & Hd2) & Hupdates & ->).
  apply Forall2_nil_inv_l in Hupdates as ->.
  simpl. rewrite Hid1, Hid2, Ha1, Ha2, Hd1, Hd2.
  rewrite (scheduled_noon_parsed _ 1705305600) by reflexivity.
  rewrite scheduled_noon_unparsed by reflexivity.
  rewrite (scheduled_noon_parsed _ 1705305660) by reflexivity.
  rewrite (scheduled_noon_parsed _ 1705306260) by reflexivity.
  repeat split; reflexivity.
Defined.

(** A stop whose arrival and departure times are empty gets neither: the
    fields stay unset although the combination of today's date with the
    empty time does not parse. *)
Lemma untimed_stop_left_unset :
  ∃ g msg t u,
    Schedule.process_gtfs_data untimed_stop = Ok g
    ∧ create_trip_update resolved g noon = Ok msg
    ∧ trip_update_of msg = Some t
    ∧ stop_time_update t = [u]
    ∧ stop_id u = "S1"
    ∧ strptime_timestamp (strftime_Ymd noon ++ " " ++ "") = None
    ∧ arrival u = None
    ∧ departure u = None
    ∧ arrival u ≠ Some (int_time noon).
Proof.
  eassert (Schedule.process_gtfs_data untimed_stop = Ok _) as Hg by reflexivity.
  match type of Hg with _ = Ok ?g => pose (index := g) end.
  eassert (create_trip_update resolved index noon = Ok _) as Hmsg.
  { unfold create_trip_update.
    rewrite ClockFacts.make_header_noon, ClockFacts.int_time_noon. reflexivity. }
  eexists index, _, _, _. split; [exact Hg|]. split; [exact Hmsg|].
  split; [reflexivity|]. split; [reflexivity|].
  repeat split; try reflexivity. discriminate.
Qed.

(** The alert inputs with no key at all. *)
Definition blank_alert : Schedule.alert_data :=
  {| Schedule.alert_id := None;
     Schedule.alert_header := None;
     Schedule.alert_description := None;
     Schedule.alert_duration := None;
     Schedule.alert_affected_entities := None;
     Schedule.alert_cause := None;
     Schedule.alert_effect := None |}.

(** The index of an empty schedule. *)
Definition empty_index : Schedule.gtfs_data :=
  {| Schedule.routes := Some ∅;
     Schedule.trips := Some ∅;
     Schedule.stops := Some ∅;
     Schedule.stop_sequences := Some ∅;
     Schedule.alerts := None |}.

(** The three builders at noon: each returns a message, and each message
    has the invariant of its kind. *)
Lemma feeds_at_noon :
  ∃ position prev' update alert,
    create_vehicle_position ∅ resolved noon = (Ok position, prev')
    ∧ feed_invariant VehiclePositionKind position
    ∧ create_trip_update resolved empty_index noon = Ok update
    ∧ feed_invariant TripUpdateKind update
    ∧ create_service_alert blank_alert noon = Ok alert
    ∧ feed_invariant ServiceAlertKind alert
    ∧ entity_id <$> entity alert = ["alert_00000000-0000-4000-8000-000000000000"].
Proof.
  eassert (create_vehicle_position ∅ resolved noon = (Ok _, _)) as Hposition.
  { unfold create_vehicle_position.
    rewrite ClockFacts.make_header_noon, ClockFacts.int_time_noon. reflexivity. }
  eassert (create_trip_update resolved empty_index noon = Ok _) as Hupdate.
  { unfold create_trip_update.
    rewrite ClockFacts.make_header_noon, ClockFacts.int_time_noon. reflexivity. }
  eassert (create_service_alert blank_alert noon = Ok _) as Halert.
  { unfold create_service_alert, period_end.
    rewrite ClockFacts.make_header_noon, ClockFacts.int_time_noon. reflexivity. }
  destruct feed_message_invariant as (Hfirst & Hsecond & Hthird).
  eexists _, _, _, _.
  split; [exact Hposition|]. split; [exact (Hfirst _ _ _ _ _ Hposition)|].
  split; [exact Hupdate|]. split; [exact (Hsecond _ _ _ _ Hupdate)|].
  split; [exact Halert|]. split; [exact (Hthird _ _ _ Halert)|].
  reflexivity.
Defined.

End FeedExamples.

(** ** The synthesis cycle *)

Module PipelineClaims.

Import Pipeline.

Section Cycle.
Context `{Runtime}.

(** The cycle stops with nothing built, or runs the builders on the
    telemetry merged with the resolved context. *)
Lemma process_data_cases prev cfg gps gtfs c :
  (∃ how, process_data prev cfg gps gtfs c
          = {| positions := prev; saved := []; ended := how |}
          ∧ how ≠ Done)
  ∨ (∃ g gps', gtfs = Some g
               ∧ process_data prev cfg gps gtfs c = build_feeds prev gps' g c).
Proof.
  unfold process_data.
  destruct (bool_decide (gps = ∅) || no_schedule gtfs);
    [left; eexists; split; [reflexivity|discriminate]|].
  destruct gtfs as [g|]; [|left; eexists; split; [reflexivity|discriminate]].
  destruct (no_vehicle _); [left; eexists; split; [reflexivity|discriminate]|].
  destruct (default ∅ _ !! _) as [route|];
    [|left; eexists; split; [reflexivity|discriminate]].
  destruct (select_trip _ _) as [[current_trip|]|e];
    [|left; eexists; split; [reflexivity|discriminate]..].
  destruct (bind _ _) as [gps'|e];
    [|left; eexists; split; [reflexivity|discriminate]].
  right. eauto.
Qed.

(** Without an [alerts] key the builders save a vehicle position, then a
    trip update, and nothing else. *)
Lemma build_feeds_without_alerts prev gps g c :
  Schedule.alerts g = None →
  Forall (λ m, m.1 = "vehicle_position" ∨ m.1 = "trip_update")
    (saved (build_feeds prev gps g c)).
Proof.
  intros Halerts. unfold build_feeds.
  destruct (Builder.create_vehicle_position prev gps c) as [[position|e] prev'];
    simpl; [|constructor].
  destruct (Builder.create_trip_update gps g c) as [update|e]; simpl.
  - rewrite Halerts. simpl.
    apply Forall_cons_2; [left; reflexivity|].
    apply Forall_cons_2; [right; reflexivity|apply Forall_nil_2].
  - apply Forall_cons_2; [left; reflexivity|apply Forall_nil_2].
Qed.

(** The vehicle's routes and the route the telemetry names, as
    [process_data] looks them up. *)
Definition configured_route (cfg : config) (gps : gmap string pyval)
  : option route_info :=
  default ∅ (vehicle_routes (get_vehicle_info cfg (dict_get_none gps "device_id")))
    !! py_str (dict_get_none gps "route_id").

(** The cycle gets as far as context resolution: both inputs are there and
    the vehicle has a configuration. *)
Definition reaches_resolution (cfg : config) (gps : gmap string pyval)
    (gtfs : option Schedule.gtfs_data) : Prop :=
  bool_decide (gps = ∅) || no_schedule gtfs = false
  ∧ no_vehicle (get_vehicle_info cfg (dict_get_none gps "device_id")) = false.

(** C8.  A cycle whose telemetry names a route that is not among the
    vehicle's configured routes, or whose matched route has no trip, builds
    and saves no message and leaves the table of previous positions as it
    was; when it gets as far as context resolution it ends there, with the
    failure of its case. *)
Theorem abort_at_context_resolution prev cfg gps gtfs c :
  configured_route cfg gps = None
  ∨ (∃ route, configured_route cfg gps = Some route
              ∧ default [] (route_trips route) = []) →
  saved (process_data prev cfg gps gtfs c) = []
  ∧ positions (process_data prev cfg gps gtfs c) = prev
  ∧ (∃ why, ended (process_data prev cfg gps gtfs c) = Failed why)
  ∧ (reaches_resolution cfg gps gtfs →
     ended (process_data prev cfg gps gtfs c)
     = Failed match configured_route cfg gps with
              | None => NoRouteInformation
              | Some _ => NoTrips
              end).
Proof.
  unfold configured_route, reaches_resolution, process_data.
  intros Hroute.
  destruct (bool_decide (gps = ∅) || no_schedule gtfs) eqn:Hinputs.
  - simpl. repeat split; eauto. intros [Hgot _]. discriminate.
  - destruct gtfs as [g|].
    + destruct (no_vehicle _) eqn:Hvehicle.
      * simpl. repeat split; eauto. intros [_ Hgot]. discriminate.
      * destruct Hroute as [-> | (route & -> & ->)]; simpl; repeat split; eauto.
    + simpl in Hinputs. rewrite orb_true_r in Hinputs. discriminate.
Qed.

(** C10.  The schedule that index construction returns has the keys
    [routes], [trips], [stops] and [stop_sequences] and no [alerts] key, so
    a cycle fed by [fetch_gtfs_static] never saves a service alert: what it
    saves is a vehicle position or a trip update. *)
Theorem no_service_alert_in_pipeline :
  (∀ raw g, Schedule.process_gtfs_data raw = Ok g →
     Schedule.alerts g = None
     ∧ is_Some (Schedule.routes g) ∧ is_Some (Schedule.trips g)
     ∧ is_Some (Schedule.stops g) ∧ is_Some (Schedule.stop_sequences g))
  ∧ (∀ prev cfg gps raw c,
       Forall (λ m, m.1 ≠ "service_alert"
                    ∧ (m.1 = "vehicle_position" ∨ m.1 = "trip_update"))
         (saved (process_data prev cfg gps (fetch_gtfs_static raw) c))).
Proof.
  assert (∀ raw g, Schedule.process_gtfs_data raw = Ok g →
            Schedule.alerts g = None
            ∧ is_Some (Schedule.routes g) ∧ is_Some (Schedule.trips g)
            ∧ is_Some (Schedule.stops g) ∧ is_Some (Schedule.stop_sequences g))
    as Hkeys.
  { intros raw g Hg.
    apply ScheduleClaims.process_gtfs_data_ok in Hg
      as (routes & trips & stops & sequences & _ & _ & _ & _ & ->).
    simpl. repeat split; eauto. }
  split; [exact Hkeys|].
  intros prev cfg gps raw c.
  destruct (process_data_cases prev cfg gps (fetch_gtfs_static raw) c)
    as [(how & -> & _) | (g & gps' & Hfetched & ->)]; [constructor|].
  assert (Schedule.alerts g = None) as Halerts.
  { unfold fetch_gtfs_static in Hfetched.
    destruct raw as [tables|]; [|discriminate].
    destruct (Schedule.process_gtfs_data tables) as [processed|] eqn:Hg;
      [|discriminate].
    injection Hfetched as <-. apply (Hkeys tables processed Hg). }
  eapply Forall_impl; [apply (build_feeds_without_alerts _ _ _ _ Halerts)|].
  intros [kind msg] [-> | ->]; simpl; split; auto; discriminate.
Qed.

End Cycle.

End PipelineClaims.

Module PipelineExamples.

Import Pipeline PipelineClaims Examples.

(** One bus with two routes: [R1] runs the three example trips, [R2] has
    none. *)
Definition bus_config : config :=
  {| vehicles := Some {[ "bus" := {|
       vehicle_fields := <["device_id" := PStr "bus"]> (<["label" := PStr "Bus 1"]> ∅);
       vehicle_routes := Some (<["R1" := {| route_trips := Some three_trips |}]>
                                 (<["R2" := {| route_trips := Some [] |}]> ∅)) |} ]} |}.

(** The telemetry of the bus on a route. *)
Definition on_route (route_id : string) : gmap string pyval :=
  <["route_id" := PStr route_id]> (HeadingExamples.telemetry (PFloat 40) (PFloat (-75))).

(** A cycle on a route the bus does not have, and one on its route without
    trips: nothing is saved and the stored fix stays. *)
Lemma unknown_route_aborts :
  let prev := {["bus" := HeadingExamples.fix_at 41 (-75)]} in
  let index := Some FeedExamples.empty_index in
  process_data prev bus_config (on_route "R9") index noon
  = {| positions := prev; saved := []; ended := Failed NoRouteInformation |}
  ∧ process_data prev bus_config (on_route "R2") index noon
    = {| positions := prev; saved := []; ended := Failed NoTrips |}.
Proof.
  intros prev index. split.
  - pose proof (abort_at_context_resolution prev bus_config (on_route "R9") index noon)
      as Habort.
    destruct (process_data prev bus_config (on_route "R9") index noon)
      as [table messages how].
    simpl in Habort. destruct Habort as (-> & -> & _ & Hended).
    { left. reflexivity. }
    rewrite Hended by (split; reflexivity). reflexivity.
  - pose proof (abort_at_context_resolution prev bus_config (on_route "R2") index noon)
      as Habort.
    destruct (process_data prev bus_config (on_route "R2") index noon)
      as [table messages how].
    simpl in Habort. destruct Habort as (-> & -> & _ & Hended).
    { right. eexists. split; reflexivity. }
    rewrite Hended by (split; reflexivity). reflexivity.
Defined.

(** The telemetry on route [R1] after the cycle has merged the resolved
    context into it: at noon the 09:00 trip is running. *)
Definition merged : gmap string pyval :=
  <["direction_id" := PInt 0]>
    (<["route_id" := PStr "R1"]>
       (<["trip_id" := PStr "T09"]>
          (<["label" := PStr "Bus 1"]>
             (<["device_id" := PStr "bus"]> (on_route "R1"))))).

Lemma cycle_on_R1 (g : Schedule.gtfs_data) :
  Schedule.routes g = Some ∅ →
  process_data ∅ bus_config (on_route "R1") (Some g) noon
  = build_feeds ∅ merged g noon.
Proof.
  intros Hroutes. unfold process_data.
  replace (no_schedule (Some g)) with false
    by (unfold no_schedule; rewrite Hroutes; reflexivity).
  reflexivity.
Qed.

(** A cycle on route [R1] at noon, fed by the index of an empty schedule,
    saves a vehicle position and a trip update for the 09:00 trip and stores
    the fix. *)
Example cycle_saves_two_feeds :
  ∃ position update table,
    process_data ∅ bus_config (on_route "R1")
      (fetch_gtfs_static (Some ∅)) noon
    = {| positions := table;
         saved := [("vehicle_position", position); ("trip_update", update)];
         ended := Done |}
    ∧ Feed.entity_id <$> Feed.entity position = ["bus"]
    ∧ Feed.entity_id <$> Feed.entity update = ["trip_T09"]
    ∧ table !! "bus" = Some {| Heading.prev_latitude := 40;
                               Heading.prev_longitude := -75;
                               Heading.prev_timestamp := time_time noon |}.
Proof.
  eassert (Builder.create_vehicle_position ∅ merged noon = (Ok _, _)) as Hposition.
  { unfold Builder.create_vehicle_position.
    rewrite ClockFacts.make_header_noon, ClockFacts.int_time_noon. reflexivity. }
  eassert (Builder.create_trip_update merged FeedExamples.empty_index noon = Ok _)
    as Hupdate.
  { unfold Builder.create_trip_update.
    rewrite ClockFacts.make_header_noon, ClockFacts.int_time_noon. reflexivity. }
  change (fetch_gtfs_static (Some ∅)) with (Some FeedExamples.empty_index).
  rewrite cycle_on_R1 by reflexivity.
  unfold build_feeds. rewrite Hposition, Hupdate. simpl.
  eexists _, _, _. split; [reflexivity|]. repeat split; reflexivity.
Qed.

(** Handed a schedule that does carry an [alerts] key, the same cycle
    builds and saves the alert: the branch is there, the pipeline's own
    schedule never takes it. *)
Example cycle_with_alerts_key :
  ∃ position update alert table,
    process_data ∅ bus_config (on_route "R1")
      (Some {| Schedule.routes := Some ∅; Schedule.trips := Some ∅;
               Schedule.stops := Some ∅; Schedule.stop_sequences := Some ∅;
               Schedule.alerts := Some [FeedExamples.blank_alert] |}) noon
    = {| positions := table;
         saved := [("vehicle_position", position); ("trip_update", update);
                   ("service_alert", alert)];
         ended := Done |}.
Proof.
  set (g := {| Schedule.routes := Some ∅; Schedule.trips := Some ∅;
               Schedule.stops := Some ∅; Schedule.stop_sequences := Some ∅;
               Schedule.alerts := Some [FeedExamples.blank_alert] |}).
  eassert (Builder.create_vehicle_position ∅ merged noon = (Ok _, _)) as Hposition.
  { unfold Builder.create_vehicle_position.
    rewrite ClockFacts.make_header_noon, ClockFacts.int_time_noon. reflexivity. }
  eassert (Builder.create_trip_update merged g noon = Ok _) as Hupdate.
  { unfold Builder.create_trip_update.
    rewrite ClockFacts.make_header_noon, ClockFacts.int_time_noon. reflexivity. }
  eassert (Builder.create_service_alert FeedExamples.blank_alert noon = Ok _) as Halert.
  { unfold Builder.create_service_alert, Builder.period_end.
    rewrite ClockFacts.make_header_noon, ClockFacts.int_time_noon. reflexivity. }
  rewrite cycle_on_R1 by reflexivity.
  unfold build_feeds. rewrite Hposition, Hupdate. simpl.
  rewrite Halert. simpl.
  eexists _, _, _, _. reflexivity.
Qed.

End PipelineExamples.

(** * The rest of [AVLSystem] *)

(** ** Acquisition and persistence *)

Module Acquisition.

Import Schedule Pipeline.

(** What [requests.get(self.gps_logger_url)] comes back with: an exception
    (of the request or of [raise_for_status]) with its message, a body that
    parses as a JSON object, or a body that does not parse, as text. *)
Inductive response : Type :=
  | RequestFailed (message : string)
  | JsonBody (data : gmap string pyval)
  | TextBody (text : string).

(** [AVLSystem.fetch_gps_data]. *)
Definition fetch_gps_data (r : response) : gmap string pyval :=
  match r with
  | JsonBody data => data
  | TextBody text_data => {["raw_data" := PStr text_data]}
  | RequestFailed e => {["error" := PStr e]}
  end.

(** What [get_trip_info] comes back with: a trip, or the [IndexError] of
    [[][0]]. *)
Inductive trip_info : Type :=
  | FirstTrip (trip : trip_config)
  | IndexError.

Section Config.
Context `{Runtime}.

(** [AVLSystem.get_trip_info], on the [routes] key of [self.config]. *)
Definition get_trip_info (routes : option (gmap string route_info)) (route_id : pyval)
  : trip_info :=
  match default [∅] (route_trips (dict_get (default ∅ routes) (py_str route_id)
                                    {| route_trips := None |})) with
  | first :: _ => FirstTrip first
  | [] => IndexError
  end.



End Config.

(** [os.path.join(a, b)] on POSIX. *)
Definition path_join (a b : string) : string :=
  match b with
  | String "/" _ => b
  | _ =>
      match a with
      | EmptyString => b
      | _ => if String.eqb (substring (String.length a - 1) 1 a) "/"
             then a ++ b else a ++ "/" ++ b
      end
  end.

(** The path [save_protobuf] writes to, [stamp] being the rendering of
    [datetime.now()] as [%Y%m%d_%H%M%S]. *)
Definition save_path (output_dir message_type stamp : string) : string :=
  let filename := message_type ++ "_" ++ stamp ++ ".pb" in
  let type_dir := path_join output_dir (message_type ++ "s") in
  path_join type_dir filename.

(** [AVLSystem.save_protobuf] on a file system that maps a path to what was
    written there; the serialized bytes are stood for by the message. *)
Definition save_protobuf (output_dir stamp : string)
    (files : gmap string Feed.FeedMessage) (feed_message : Feed.FeedMessage)
    (message_type : string) : gmap string Feed.FeedMessage :=
  <[save_path output_dir message_type stamp := feed_message]> files.

End Acquisition.

Module AcquisitionFacts.

Import Schedule Pipeline Acquisition.

(** The cycle that ends before anything is built. *)
Definition stopped (prev : Heading.previous_positions) (why : failure) : cycle :=
  {| positions := prev; saved := []; ended := Failed why |}.

Section Cycle.
Context `{Runtime}.

(** The configuration [get_vehicle_info] makes up for a vehicle that the
    configuration file does not list. *)
Definition default_vehicle (vehicle_number : pyval) : vehicle_info :=
  {| vehicle_fields :=
       <["device_id" := PStr (py_str vehicle_number)]>
         (<["label" := PStr (py_str vehicle_number)]> ∅);
     vehicle_routes := None |}.

Lemma get_vehicle_info_unknown cfg vehicle_number :
  default ∅ (vehicles cfg) !! py_str vehicle_number = None →
  get_vehicle_info cfg vehicle_number = default_vehicle vehicle_number.
Proof.
  intros Hunknown. unfold get_vehicle_info, dict_get. rewrite Hunknown. reflexivity.
Qed.

Lemma default_vehicle_truthy vehicle_number :
  no_vehicle (default_vehicle vehicle_number) = false.
Proof.
  unfold no_vehicle, default_vehicle. simpl.
  rewrite bool_decide_eq_false_2; [reflexivity|]. apply insert_non_empty.
Qed.

(** A cycle for a vehicle the configuration does not list stops at the
    route lookup. *)
Lemma unlisted_vehicle_cycle prev cfg gps gtfs c :
  gps ≠ ∅ → no_schedule gtfs = false →
  default ∅ (vehicles cfg) !! py_str (dict_get_none gps "device_id") = None →
  process_data prev cfg gps gtfs c = stopped prev NoRouteInformation.
Proof.
  intros Hgps Hschedule Hunknown. unfold process_data.
  rewrite (bool_decide_eq_false_2 _ Hgps), Hschedule. simpl.
  destruct gtfs as [g|]; [|discriminate].
  rewrite (get_vehicle_info_unknown _ _ Hunknown), default_vehicle_truthy.
  simpl. rewrite lookup_empty. reflexivity.
Qed.

(** X1.  A vehicle that the configuration does not list is given a
    configuration of its own, its number as [device_id] and as [label] and
    no route; that configuration is never empty, so the cycle of such a
    vehicle does not stop for a missing configuration: with both inputs
    there it stops at the route lookup, nothing built. *)
Theorem unlisted_vehicle_stops_at_route_lookup cfg vehicle_number :
  default ∅ (vehicles cfg) !! py_str vehicle_number = None →
  get_vehicle_info cfg vehicle_number = default_vehicle vehicle_number
  ∧ ∀ prev gps gtfs c,
      dict_get_none gps "device_id" = vehicle_number →
      ended (process_data prev cfg gps gtfs c) ≠ Failed NoVehicleConfiguration
      ∧ (gps ≠ ∅ → no_schedule gtfs = false →
         process_data prev cfg gps gtfs c = stopped prev NoRouteInformation).
Proof.
  intros Hunknown. split; [apply get_vehicle_info_unknown, Hunknown|].
  intros prev gps gtfs c <-. split.
  - unfold process_data.
    destruct (bool_decide (gps = ∅) || no_schedule gtfs); [discriminate|].
    destruct gtfs as [g|]; [|discriminate].
    rewrite (get_vehicle_info_unknown _ _ Hunknown), default_vehicle_truthy.
    simpl. rewrite lookup_empty. discriminate.
  - intros Hgps Hschedule. apply unlisted_vehicle_cycle; assumption.
Qed.

(** The fetch did not bring a JSON object. *)
Definition fetch_failed (r : response) : Prop :=
  match r with
  | JsonBody _ => False
  | _ => True
  end.

(** X2.  When the telemetry fetch fails, by an exception or by a body that
    is not JSON, [fetch_gps_data] returns a one-key dict, which is not
    empty: the cycle does not take the exit for a failed fetch.  It looks up
    the vehicle ["None"], and unless the configuration lists one it stops
    at the route lookup. *)
Theorem failed_gps_fetch_goes_unnoticed r prev cfg gtfs c :
  fetch_failed r →
  no_schedule gtfs = false →
  default ∅ (vehicles cfg) !! "None" = None →
  fetch_gps_data r ≠ ∅
  ∧ dict_get_none (fetch_gps_data r) "device_id" = PNone
  ∧ process_data prev cfg (fetch_gps_data r) gtfs c
    = stopped prev NoRouteInformation.
Proof.
  intros Hfailed Hschedule Hunknown.
  assert (fetch_gps_data r ≠ ∅
          ∧ dict_get_none (fetch_gps_data r) "device_id" = PNone) as [Hgps Hdevice].
  { destruct r as [e|data|text]; [|contradiction|]; simpl;
      (split; [apply insert_non_empty|]);
      unfold dict_get_none, dict_get;
      rewrite lookup_singleton_ne by discriminate; reflexivity. }
  split; [exact Hgps|]. split; [exact Hdevice|].
  apply unlisted_vehicle_cycle; [exact Hgps|exact Hschedule|].
  rewrite Hdevice. exact Hunknown.
Qed.

(** Index construction succeeds exactly when the numeric fields convert. *)
Lemma process_gtfs_data_succeeds raw :
  ScheduleClaims.numeric_fields_convert raw ↔ ∃ g, process_gtfs_data raw = Ok g.
Proof.
  unfold ScheduleClaims.numeric_fields_convert.
  rewrite <- (ScheduleClaims.process_table_succeeds raw "trips" add_trip
                ScheduleClaims.trip_converts ScheduleClaims.add_trip_succeeds).
  rewrite <- (ScheduleClaims.process_table_succeeds raw "stops" add_stop
                ScheduleClaims.stop_converts ScheduleClaims.add_stop_succeeds).
  rewrite <- (ScheduleClaims.process_table_succeeds raw "stop_times" add_stop_time
                ScheduleClaims.stop_time_converts
                ScheduleClaims.add_stop_time_succeeds).
  unfold process_gtfs_data. split.
  - intros ([trips Htrips] & [stops Hstops] & [sequences Hsequences]).
    assert (∃ routes, process_table raw "routes" add_route = Ok routes)
      as [routes ->].
    { unfold process_table. destruct (raw !! "routes") as [rows|]; [|eauto].
      rewrite (ScheduleFacts.for_each_total add_route
                 (λ acc route,
                    <[py_str (dict_get route "route_id" (PStr "")) := _]> acc))
        by reflexivity.
      eauto. }
    rewrite Htrips, Hstops, Hsequences. simpl. eauto.
  - intros [g Hg].
    destruct (process_table raw "routes" add_route); [|discriminate].
    destruct (process_table raw "trips" add_trip); [|discriminate].
    destruct (process_table raw "stops" add_stop); [|discriminate].
    destruct (process_table raw "stop_times" add_stop_time); [|discriminate].
    repeat split; eexists; reflexivity.
Qed.

(** X3.  The schedule fetch returns nothing exactly when a numeric field of
    some row does not convert; one such cell anywhere in the trips, stops or
    stop times makes the cycle end as a failed fetch, whatever the
    telemetry, with nothing built and the table of previous positions
    untouched.  A schedule that is returned is never an empty dict. *)
Theorem unconvertible_cell_fails_the_cycle raw :
  (fetch_gtfs_static (Some raw) = None ↔ ¬ ScheduleClaims.numeric_fields_convert raw)
  ∧ (¬ ScheduleClaims.numeric_fields_convert raw →
     ∀ prev cfg gps c,
       process_data prev cfg gps (fetch_gtfs_static (Some raw)) c
       = stopped prev FetchFailed)
  ∧ (∀ g, fetch_gtfs_static (Some raw) = Some g → no_schedule (Some g) = false).
Proof.
  assert (fetch_gtfs_static (Some raw) = None
          ↔ ¬ ScheduleClaims.numeric_fields_convert raw) as Hnone.
  { rewrite process_gtfs_data_succeeds. unfold fetch_gtfs_static.
    destruct (process_gtfs_data raw) as [g|e]; split.
    - discriminate.
    - intros Hno. exfalso. apply Hno. eauto.
    - intros _ [g Hg]. discriminate.
    - reflexivity. }
  split; [exact Hnone|]. split.
  - intros Hbad prev cfg gps c. apply Hnone in Hbad. rewrite Hbad.
    unfold process_data. simpl. rewrite orb_true_r. reflexivity.
  - intros g. unfold fetch_gtfs_static.
    destruct (process_gtfs_data raw) as [processed|e] eqn:Hg; [|discriminate].
    intros [= <-].
    apply ScheduleClaims.process_gtfs_data_ok in Hg
      as (routes & trips & stops & sequences & _ & _ & _ & _ & ->).
    reflexivity.
Qed.

(** X4.  [get_trip_info] returns the first trip of the route, an empty dict
    when the configuration has no such route or the route has no [trips]
    key, and raises [IndexError] exactly when the route's trip list is
    there and empty. *)
Theorem get_trip_info_first_trip routes route_id :
  let route := default ∅ routes !! py_str route_id in
  (get_trip_info routes route_id = IndexError
   ↔ ∃ r, route = Some r ∧ route_trips r = Some [])
  ∧ (route = None → get_trip_info routes route_id = FirstTrip ∅)
  ∧ (∀ r, route = Some r → route_trips r = None →
       get_trip_info routes route_id = FirstTrip ∅)
  ∧ (∀ r first rest, route = Some r → route_trips r = Some (first :: rest) →
       get_trip_info routes route_id = FirstTrip first).
Proof.
  intros route. subst route. unfold get_trip_info, dict_get.
  destruct (default ∅ routes !! py_str route_id) as [r|]; simpl.
  - destruct (route_trips r) as [[|first rest]|] eqn:Htrips; simpl.
    + split; [split; eauto|]. repeat split; intros; congruence.
    + split; [split; [discriminate|intros (r' & [= <-] & Hr'); congruence]|].
      repeat split; intros; congruence.
    + split; [split; [discriminate|intros (r' & [= <-] & Hr'); congruence]|].
      repeat split; intros; congruence.
  - split; [split; [discriminate|intros (r' & Hr' & _); discriminate]|].
    repeat split; intros; congruence.
Qed.

End Cycle.

End AcquisitionFacts.

(** ** More on the schedule index *)

Module IndexFacts.

Import Schedule ScheduleFacts ScheduleClaims.

Local Open Scope Z_scope.

(** A loop whose body, when it does not raise, is [f]: if the loop comes
    back, it comes back with the left fold of [f]. *)
Lemma for_each_foldl {A S} (step : S → A → result S) (f : S → A → S) xs acc out :
  (∀ s x s', step s x = Ok s' → s' = f s x) →
  for_each step xs acc = Ok out → out = foldl f acc xs.
Proof.
  intros Hstep. revert acc.
  induction xs as [|x xs IH]; intros acc; simpl.
  - intros [= <-]. reflexivity.
  - destruct (step acc x) as [acc'|e] eqn:Hx; simpl; [|discriminate].
    apply Hstep in Hx as ->. apply IH.
Qed.

(** Rows stored under their key, a later row replacing an earlier one of
    the same key: a key maps to the record of the last row that has it. *)
Lemma lookup_foldl_insert {V} (key : row → string) (val : row → V) rows
    (acc : gmap string V) k :
  foldl (λ m r, <[key r := val r]> m) acc rows !! k
  = match last (filter (λ r, key r = k) rows) with
    | Some r => Some (val r)
    | None => acc !! k
    end.
Proof.
  revert acc. induction rows as [|r rows IH]; intros acc; simpl; [reflexivity|].
  rewrite IH, filter_cons.
  destruct (decide (key r = k)) as [<-|Hne].
  - rewrite last_cons.
    destruct (last (filter _ rows)); [reflexivity|]. apply lookup_insert_eq.
  - destruct (last (filter _ rows)); [reflexivity|].
    apply lookup_insert_ne. exact Hne.
Qed.

(** Rows appended to the list under their key: a key maps to what it held
    followed by the entries of its rows, in row order. *)
Lemma lookup_foldl_append {V} (key : row → string) (val : row → V) rows
    (acc : gmap string (list V)) k :
  foldl (λ m r, <[key r := (dict_get m (key r) [] ++ [val r])%list]> m) acc rows !! k
  = match filter (λ r, key r = k) rows with
    | [] => acc !! k
    | matching => Some (dict_get acc k [] ++ (val <$> matching))%list
    end.
Proof.
  revert acc. induction rows as [|r rows IH]; intros acc; simpl; [reflexivity|].
  rewrite IH, filter_cons.
  destruct (decide (key r = k)) as [<-|Hne].
  - destruct (filter _ rows) as [|r' matching]; simpl.
    + rewrite lookup_insert_eq. reflexivity.
    + unfold dict_get. rewrite lookup_insert_eq. simpl.
      rewrite <- app_assoc. reflexivity.
  - unfold dict_get. rewrite !lookup_insert_ne by exact Hne.
    destruct (filter _ rows); reflexivity.
Qed.

Section Index.
Context `{Runtime}.

(** The key a row is stored under: [str(row.get(name, ''))]. *)
Definition id_of (name : string) (r : row) : string :=
  py_str (dict_get r name (PStr "")).

(** The rows of a table, none when the table is absent. *)
Definition rows_of (raw : raw_tables) (name : string) : list row :=
  default [] (raw !! name).

(** The rows of a table that are stored under key [k]. *)
Definition rows_with (raw : raw_tables) (name id_name k : string) : list row :=
  filter (λ r, id_of id_name r = k) (rows_of raw name).

(** The entry a stop time row adds to its trip, [sequence] being its
    converted [stop_sequence]. *)
Definition entry_of (stop_time : row) : stop_seq_rec :=
  {| stop_sequence :=
       match py_int (dict_get stop_time "stop_sequence" (PInt 0)) with
       | Ok sequence => sequence
       | Raise _ => 0
       end;
     seq_stop_id := id_of "stop_id" stop_time;
     arrival_time := dict_get stop_time "arrival_time" (PStr "");
     departure_time := dict_get stop_time "departure_time" (PStr "");
     stop_headsign := dict_get stop_time "stop_headsign" (PStr "");
     pickup_type := dict_get stop_time "pickup_type" (PStr "");
     drop_off_type := dict_get stop_time "drop_off_type" (PStr "") |}.

Lemma add_stop_time_entry acc stop_time acc' :
  add_stop_time acc stop_time = Ok acc' →
  acc' = <[id_of "trip_id" stop_time :=
             (dict_get acc (id_of "trip_id" stop_time) [] ++ [entry_of stop_time])%list]>
           acc.
Proof.
  unfold add_stop_time, entry_of, id_of.
  destruct (py_int (dict_get stop_time "stop_sequence" (PInt 0))) as [sequence|];
    simpl; [|discriminate].
  intros [= <-]. reflexivity.
Qed.

(** X6.  On a built index the stop sequence of a trip is exactly the
    entries of the stop time rows that name the trip, sorted by sequence
    number with ties in row order: no row is dropped, duplicated or filed
    under another trip, and a trip that no row names has no stop sequence.
    A row without a [trip_id] is filed under the empty id. *)
Theorem stop_sequence_of_trip raw g trip_id :
  process_gtfs_data raw = Ok g →
  ∃ sequences,
    stop_sequences g = Some sequences
    ∧ sequences !! trip_id
      = match rows_with raw "stop_times" "trip_id" trip_id with
        | [] => None
        | matching => Some (sort_by_sequence (entry_of <$> matching))
        end.
Proof.
  intros Hg.
  apply process_gtfs_data_ok in Hg
    as (routes & trips & stops & inserted & _ & _ & _ & Hinserted & ->).
  eexists. split; [reflexivity|].
  rewrite lookup_fmap. unfold rows_with, rows_of.
  unfold process_table in Hinserted.
  destruct (raw !! "stop_times") as [rows|]; simpl.
  - apply (for_each_foldl add_stop_time
             (λ m r, <[id_of "trip_id" r :=
                         (dict_get m (id_of "trip_id" r) [] ++ [entry_of r])%list]> m))
      in Hinserted; [|apply add_stop_time_entry].
    rewrite Hinserted, (lookup_foldl_append (id_of "trip_id") entry_of).
    destruct (filter _ rows); reflexivity.
  - injection Hinserted as <-. reflexivity.
Qed.

(** The records the route, trip and stop rows are stored as. *)
Definition route_of (route : row) : route_rec :=
  {| route_id := id_of "route_id" route;
     route_name := dict_get route "route_long_name" (PStr "");
     route_type := dict_get route "route_type" (PStr "");
     route_color := dict_get route "route_color" (PStr "");
     route_text_color := dict_get route "route_text_color" (PStr "") |}.

Definition trip_of (trip : row) : trip_rec :=
  {| Schedule.trip_id := id_of "trip_id" trip;
     trip_route_id := id_of "route_id" trip;
     service_id := dict_get trip "service_id" (PStr "");
     direction_id :=
       match py_int (dict_get trip "direction_id" (PInt 0)) with
       | Ok direction => direction
       | Raise _ => 0
       end;
     shape_id := dict_get trip "shape_id" (PStr "");
     wheelchair_accessible := dict_get trip "wheelchair_accessible" (PStr "") |}.

Definition stop_of (stop : row) : stop_rec :=
  {| stop_id := id_of "stop_id" stop;
     stop_name := dict_get stop "stop_name" (PStr "");
     stop_lat :=
       match py_float (dict_get stop "stop_lat" (PFloat 0)) with
       | Ok lat => lat
       | Raise _ => 0%R
       end;
     stop_lon :=
       match py_float (dict_get stop "stop_lon" (PFloat 0)) with
       | Ok lon => lon
       | Raise _ => 0%R
       end;
     stop_code := dict_get stop "stop_code" (PStr "");
     stop_desc := dict_get stop "stop_desc" (PStr "") |}.

Lemma add_route_record acc route acc' :
  add_route acc route = Ok acc' → acc' = <[id_of "route_id" route := route_of route]> acc.
Proof. unfold add_route. intros [= <-]. reflexivity. Qed.

Lemma add_trip_record acc trip acc' :
  add_trip acc trip = Ok acc' → acc' = <[id_of "trip_id" trip := trip_of trip]> acc.
Proof.
  unfold add_trip, trip_of, id_of.
  destruct (py_int (dict_get trip "direction_id" (PInt 0))); simpl; [|discriminate].
  intros [= <-]. reflexivity.
Qed.

Lemma add_stop_record acc stop acc' :
  add_stop acc stop = Ok acc' → acc' = <[id_of "stop_id" stop := stop_of stop]> acc.
Proof.
  unfold add_stop, stop_of, id_of.
  destruct (py_float (dict_get stop "stop_lat" (PFloat 0))); simpl; [|discriminate].
  destruct (py_float (dict_get stop "stop_lon" (PFloat 0))); simpl; [|discriminate].
  intros [= <-]. reflexivity.
Qed.

(** A table whose rows are stored under their id: a key of the sub-map
    holds the record of the last row with that id. *)
Lemma process_table_last_row {V} raw name id_name
    (step : gmap string V → row → result (gmap string V)) (record : row → V) m k :
  (∀ acc r acc', step acc r = Ok acc' → acc' = <[id_of id_name r := record r]> acc) →
  process_table raw name step = Ok m →
  m !! k = record <$> last (rows_with raw name id_name k).
Proof.
  intros Hstep. unfold process_table, rows_with, rows_of.
  destruct (raw !! name) as [rows|]; simpl.
  - intros Hm.
    apply (for_each_foldl step (λ acc r, <[id_of id_name r := record r]> acc))
      in Hm; [|exact Hstep].
    rewrite Hm, (lookup_foldl_insert (id_of id_name) record).
    destruct (last _); [reflexivity|apply lookup_empty].
  - intros [= <-]. apply lookup_empty.
Qed.

(** X5.  On a built index the routes, trips and stops are keyed by the
    string of their id and each key holds the record of the last row of
    the table with that id: rows that share an id replace one another
    silently, and so do the rows that have no id, under the empty key. *)
Theorem last_row_of_an_id_wins raw g k :
  process_gtfs_data raw = Ok g →
  ∃ routes trips stops,
    Schedule.routes g = Some routes
    ∧ Schedule.trips g = Some trips
    ∧ Schedule.stops g = Some stops
    ∧ routes !! k = route_of <$> last (rows_with raw "routes" "route_id" k)
    ∧ trips !! k = trip_of <$> last (rows_with raw "trips" "trip_id" k)
    ∧ stops !! k = stop_of <$> last (rows_with raw "stops" "stop_id" k).
Proof.
  intros Hg.
  apply process_gtfs_data_ok in Hg
    as (routes & trips & stops & inserted & Hroutes & Htrips & Hstops & _ & ->).
  exists routes, trips, stops. repeat split.
  - apply (process_table_last_row raw "routes" "route_id" add_route);
      [apply add_route_record|exact Hroutes].
  - apply (process_table_last_row raw "trips" "trip_id" add_trip);
      [apply add_trip_record|exact Htrips].
  - apply (process_table_last_row raw "stops" "stop_id" add_stop);
      [apply add_stop_record|exact Hstops].
Qed.

End Index.

End IndexFacts.

(** ** More on trip selection *)

Module SelectionFacts.

Import Pipeline TripSelection.

(** The order [<=] of strings is transitive. *)
Lemma compare_not_Gt_trans a b c :
  String.compare a b ≠ Gt → String.compare b c ≠ Gt → String.compare a c ≠ Gt.
Proof.
  revert b c. induction a as [|x a IH]; intros [|y b] [|z c]; simpl;
    try congruence.
  unfold Ascii.compare.
  destruct (N.compare_spec (N_of_ascii x) (N_of_ascii y)) as [Hxy|Hxy|Hxy];
    destruct (N.compare_spec (N_of_ascii y) (N_of_ascii z)) as [Hyz|Hyz|Hyz];
    try congruence;
    destruct (N.compare_spec (N_of_ascii x) (N_of_ascii z)) as [Hxz|Hxz|Hxz];
    try congruence; try lia.
  apply IH.
Qed.

Lemma leb_trans a b c :
  String.leb a b = true → String.leb b c = true → String.leb a c = true.
Proof.
  unfold String.leb. intros Hab Hbc.
  pose proof (compare_not_Gt_trans a b c) as Htrans.
  destruct (String.compare a b); try discriminate;
    destruct (String.compare b c); try discriminate;
    destruct (String.compare a c); try reflexivity;
    exfalso; apply Htrans; congruence.
Qed.

(** The start time of a trip, as the loop reads it. *)
Definition start_of (trip : trip_config) : pyval :=
  dict_get trip "start_time" (PStr "").

(** Start times ascending: each trip starts no later than every trip after
    it. *)
Definition starts_no_later (a b : trip_config) : Prop :=
  ∃ s t, start_of a = PStr s ∧ start_of b = PStr t ∧ String.leb s t = true.

Lemma scan_stops_at_unstarted prefix trip rest now current :
  le_str (start_of trip) now = Ok false →
  scan_trips (prefix ++ trip :: rest) now current
  = scan_trips (prefix ++ [trip]) now current.
Proof.
  intros Hunstarted. revert current.
  induction prefix as [|first prefix IH]; intros current; simpl.
  - unfold start_of in Hunstarted. rewrite Hunstarted. reflexivity.
  - destruct (le_str (dict_get first "start_time" (PStr "")) now) as [[|]|e];
      simpl; [apply IH|reflexivity..].
Qed.

(** X14.  The loop breaks at the first trip that has not started: whatever
    follows that trip in the list, started or not, has no part in the
    selection. *)
Theorem trips_after_the_break_are_ignored prefix trip rest rest' now :
  le_str (start_of trip) now = Ok false →
  select_trip (prefix ++ trip :: rest) now
  = select_trip (prefix ++ trip :: rest') now.
Proof.
  intros Hunstarted. unfold select_trip.
  rewrite (scan_stops_at_unstarted prefix trip rest now None Hunstarted),
    (scan_stops_at_unstarted prefix trip rest' now None Hunstarted).
  destruct (scan_trips (prefix ++ [trip]) now None) as [current|e]; simpl;
    [|reflexivity].
  destruct (trip_found current); [reflexivity|].
  destruct prefix; reflexivity.
Qed.

Lemma filter_none {A} (P : A → Prop) `{∀ x, Decision (P x)} (l : list A) :
  Forall (λ x, ¬ P x) l → filter P l = [].
Proof.
  induction 1 as [|x l Hx _ IH]; [reflexivity|].
  rewrite filter_cons, decide_False by exact Hx. exact IH.
Qed.

Lemma sorted_prefix_is_filter now trips :
  Forall well_formed trips →
  StronglySorted starts_no_later trips →
  scanned_prefix now trips = filter (λ trip, started now trip = true) trips.
Proof.
  intros Hwf Hsorted. induction Hsorted as [|trip trips _ IH Hlater]; [reflexivity|].
  apply Forall_cons in Hwf as [_ Hwf]. simpl. rewrite filter_cons.
  destruct (started now trip) eqn:Hstarted.
  - rewrite decide_True by reflexivity. rewrite (IH Hwf). reflexivity.
  - rewrite decide_False by discriminate.
    symmetry. apply filter_none.
    eapply Forall_impl; [exact Hlater|]. simpl.
    intros later (s & t & Hs & Ht & Hst) Hlater_started.
    unfold started in Hstarted, Hlater_started. unfold start_of in Hs, Ht.
    rewrite Hs in Hstarted. rewrite Ht in Hlater_started.
    rewrite (leb_trans s t now Hst Hlater_started) in Hstarted. discriminate.
Qed.

(** X15.  When the trips of a route are listed with ascending start times,
    the selection is the last trip of the whole list that has started by
    [now], whichever trips precede it; if none has started it is the first
    trip.  The selected trip is always one of the listed trips. *)
Theorem sorted_trips_select_latest_started trips now :
  Forall well_formed trips →
  StronglySorted starts_no_later trips →
  ∃ choice,
    select_trip trips now = Ok choice
    ∧ choice = match last (filter (λ trip, started now trip = true) trips) with
               | Some trip => Some trip
               | None => head trips
               end
    ∧ ∀ trip, choice = Some trip → trip ∈ trips.
Proof.
  intros Hwf Hsorted. eexists. split; [|split; [reflexivity|]].
  - unfold select_trip. rewrite (scan_trips_prefix now trips None Hwf). simpl.
    rewrite (sorted_prefix_is_filter now trips Hwf Hsorted).
    destruct (last (filter _ trips)) as [trip|] eqn:Hlast.
    + assert (well_formed trip) as Htrip.
      { apply last_Some_elem_of, list_elem_of_filter in Hlast as [_ Hin].
        rewrite Forall_forall in Hwf. apply Hwf, Hin. }
      rewrite (well_formed_found trip Htrip). reflexivity.
    + simpl. destruct trips; reflexivity.
  - intros trip.
    destruct (last (filter _ trips)) as [latest|] eqn:Hlast.
    + intros [= <-].
      apply last_Some_elem_of, list_elem_of_filter in Hlast as [_ Hin]. exact Hin.
    + intros Hhead. apply head_Some_elem_of. exact Hhead.
Qed.

End SelectionFacts.

(** ** More on the builders *)

Module BuilderFacts.

Import Feed Builder FeedClaims.

Local Open Scope Z_scope.

(** Peels the successful [try!] steps off a hypothesis [H : ... = Ok _]. *)
Ltac peel H :=
  repeat match type of H with
         | bind ?m _ = Ok _ =>
             let E := fresh "Hstep" in
             destruct m eqn:E; simpl in H; [|discriminate H]
         end.

(** The three zeroes the handler writes. *)
Definition zero_position : Position :=
  {| latitude := 0; longitude := 0; bearing := 0 |}.

Section Vehicle.
Context `{Runtime}.

(** The heading estimation either zeroes the position and leaves the table,
    or stores under the device exactly the coordinates it emits. *)
Lemma estimate_shape prev gps c position prev' :
  Heading.estimate prev gps c = Ok (position, prev') →
  (position = zero_position ∧ prev' = prev)
  ∨ prev' = <[HeadingClaims.device_of gps :=
               {| Heading.prev_latitude := latitude position;
                  Heading.prev_longitude := longitude position;
                  Heading.prev_timestamp := time_time c |}]> prev.
Proof.
  unfold Heading.estimate, Heading.position_block, HeadingClaims.device_of.
  destruct (py_float (dict_get gps "latitude" (PFloat 0))) as [lat|e] eqn:Hlat; simpl.
  - destruct (py_float (dict_get gps "longitude" (PFloat 0))) as [lon|e] eqn:Hlon;
      simpl.
    + destruct (match prev !! py_str (dict_get_none gps "device_id") with
                | Some _ => _ | None => _ end) as [b|e] eqn:Hb; simpl.
      * intros [= <- <-]. right. reflexivity.
      * destruct e; [intros [= <- <-]; left; split; reflexivity..|discriminate].
    + destruct (HeadingClaims.py_float_raises _ _ Hlon) as [-> | ->];
        intros [= <- <-]; left; split; reflexivity.
  - destruct (HeadingClaims.py_float_raises _ _ Hlat) as [-> | ->];
      intros [= <- <-]; left; split; reflexivity.
Qed.


Lemma make_header_fits c :
  (∃ hdr, make_header c = Ok hdr) ↔ 0 ≤ int_time c < 2 ^ 64.
Proof.
  unfold make_header.
  destruct (set_uint64 (int_time c)) as [ts|e] eqn:Hts; simpl.
  - apply set_uint64_ok in Hts as [_ Hfit]. split; eauto.
  - split; [intros [? ?]; discriminate|]. intros Hfit.
    assert (set_uint64 (int_time c) = Ok (int_time c)) as Hok
      by (apply set_uint64_ok; split; [reflexivity|exact Hfit]).
    congruence.
Qed.


(** X11.  A vehicle position that is returned and the table agree: the
    entity and the vehicle carry the device id the table is keyed by, and
    either the table now holds under that id the latitude and longitude the
    message carries, with the call's time, every other device untouched, or
    the table is unchanged and the message carries the position
    (0, 0, 0). *)
Theorem message_and_baseline_agree prev gps c msg prev' :
  create_vehicle_position prev gps c = (Ok msg, prev') →
  ∃ e v,
    entity msg = [e]
    ∧ entity_payload e = Vehicle v
    ∧ entity_id e = HeadingClaims.device_of gps
    ∧ id (vp_vehicle v) = HeadingClaims.device_of gps
    ∧ ((vp_position v = zero_position ∧ prev' = prev)
       ∨ prev' = <[HeadingClaims.device_of gps :=
                    {| Heading.prev_latitude := latitude (vp_position v);
                       Heading.prev_longitude := longitude (vp_position v);
                       Heading.prev_timestamp := time_time c |}]> prev).
Proof.
  unfold create_vehicle_position.
  destruct (make_header c) as [hdr|]; simpl; [|discriminate].
  destruct (trip_descriptor gps None c) as [trip|]; simpl; [|discriminate].
  destruct (Heading.estimate prev gps c) as [[position table]|] eqn:Hestimate;
    [|discriminate].
  destruct (set_uint64 (int_time c)) as [ts|]; simpl; [|discriminate].
  intros [= <- <-]. eexists _, _.
  split; [reflexivity|]. split; [reflexivity|].
  split; [reflexivity|]. split; [reflexivity|].
  simpl. apply (estimate_shape prev gps c position table Hestimate).
Qed.

End Vehicle.

End BuilderFacts.

(** ** More on the bearing *)

Module BearingFacts.

Import Heading HeadingClaims.

Local Open Scope R_scope.

(** Between a point and itself the bearing is 0. *)
Lemma calculate_bearing_same_point lat lon : calculate_bearing lat lon lat lon = 0.
Proof.
  unfold calculate_bearing.
  replace (radians lon - radians lon) with 0 by lra.
  rewrite sin_0, cos_0, Rmult_0_l, Rmult_1_r.
  replace (cos (radians lat) * sin (radians lat)
           - sin (radians lat) * cos (radians lat)) with 0 by lra.
  unfold atan2.
  destruct (Rlt_dec 0 0) as [Hlt|_]; [lra|].
  unfold degrees, fmod.
  replace ((0 * 180 / PI + 360) / 360) with (IZR 1)
    by (pose proof PI_RGT_0; field; lra).
  rewrite ClockFacts.Int_part_IZR. pose proof PI_RGT_0. field. lra.
Qed.

(** A fix due south of the previous one, on the same meridian, gives the
    bearing 180. *)
Lemma calculate_bearing_due_south lat1 lat2 lon :
  -180 < lat2 - lat1 < 0 → calculate_bearing lat1 lon lat2 lon = 180.
Proof.
  intros Hsouth. unfold calculate_bearing, radians.
  replace (lon * PI / 180 - lon * PI / 180) with 0 by lra.
  rewrite sin_0, cos_0, Rmult_0_l, Rmult_1_r.
  replace (cos (lat1 * PI / 180) * sin (lat2 * PI / 180)
           - sin (lat1 * PI / 180) * cos (lat2 * PI / 180))
    with (sin (lat2 * PI / 180 - lat1 * PI / 180)) by (rewrite sin_minus; lra).
  pose proof PI_RGT_0 as Hpi.
  assert (sin (lat2 * PI / 180 - lat1 * PI / 180) < 0) as Hx.
  { apply sin_lt_0_var.
    - replace (lat2 * PI / 180 - lat1 * PI / 180)
        with ((lat2 - lat1) * (PI / 180)) by lra.
      replace (- PI) with (-180 * (PI / 180)) by lra.
      apply Rmult_lt_compat_r; lra.
    - replace (lat2 * PI / 180 - lat1 * PI / 180)
        with ((lat2 - lat1) * (PI / 180)) by lra.
      replace 0 with (0 * (PI / 180)) by lra.
      apply Rmult_lt_compat_r; lra. }
  unfold atan2.
  destruct (Rlt_dec 0 _) as [Hpos|_]; [lra|].
  destruct (Rlt_dec _ 0) as [_|Hno]; [|contradiction].
  destruct (Rle_dec 0 0) as [_|Hno]; [|lra].
  unfold Rdiv at 1. rewrite Rmult_0_l, atan_0.
  unfold degrees, fmod.
  replace ((0 + PI) * 180 / PI + 360) with 540 by (field; lra).
  replace (Int_part (540 / 360)) with 1%Z
    by (apply Int_part_spec; simpl; lra).
  lra.
Qed.

Section Estimate.
Context `{Runtime}.

(** X13.  Along a meridian the bearing is exact: a fix north of the
    previous one, by less than 180 degrees of latitude, has bearing 0, and
    a fix south of it has bearing 180. *)
Theorem bearing_along_a_meridian lat1 lat2 lon :
  (0 < lat2 - lat1 < 180 → calculate_bearing lat1 lon lat2 lon = 0)
  ∧ (-180 < lat2 - lat1 < 0 → calculate_bearing lat1 lon lat2 lon = 180).
Proof.
  split.
  - apply HeadingExamples.calculate_bearing_due_north.
  - apply calculate_bearing_due_south.
Qed.

(** X12.  A vehicle that reports the very coordinates that are stored for
    it, none of them zero, is given the bearing 0: the bearing its
    telemetry carries is not used, and the stored fix is renewed. *)
Theorem stationary_vehicle_heads_north prev gps c lat lon previous :
  py_float (dict_get gps "latitude" (PFloat 0)) = Ok lat →
  py_float (dict_get gps "longitude" (PFloat 0)) = Ok lon →
  prev !! device_of gps = Some previous →
  prev_latitude previous = lat → prev_longitude previous = lon →
  lat ≠ 0 → lon ≠ 0 →
  estimate prev gps c
  = Ok ({| Feed.latitude := lat; Feed.longitude := lon; Feed.bearing := 0 |},
        <[device_of gps := {| prev_latitude := lat; prev_longitude := lon;
                              prev_timestamp := time_time c |}]> prev).
Proof.
  intros Hlat Hlon Hprev Hsame_lat Hsame_lon Hnz_lat Hnz_lon.
  assert (all_nonzero previous lat lon = true) as Hguard.
  { unfold all_nonzero. rewrite Hsame_lat, Hsame_lon.
    rewrite !(proj2 (nonzero_true _)) by assumption. reflexivity. }
  assert (settled_bearing prev gps lat lon = 0) as Hsettled.
  { unfold settled_bearing. rewrite Hprev, Hguard, Hsame_lat, Hsame_lon.
    apply calculate_bearing_same_point. }
  destruct (estimate_cases prev gps c lat lon Hlat Hlon)
    as [[_ Hdone] | [(previous' & e & Hprev' & Hfalse & _) _]].
  - rewrite Hdone, Hsettled. reflexivity.
  - rewrite Hprev in Hprev'. injection Hprev' as <-. congruence.
Qed.

End Estimate.

End BearingFacts.

(** ** More on service alerts *)

Module AlertFacts.

Import Feed Builder FeedClaims BuilderFacts Schedule.

Local Open Scope Z_scope.

(** A key of the alert inputs that is absent or holds a [str]. *)
Definition textual (field : option pyval) : Prop :=
  field = None ∨ ∃ text, field = Some (PStr text).

(** The text of such a key, [dflt] when it is absent. *)
Definition text_of (field : option pyval) (dflt : string) : string :=
  match field with
  | Some (PStr text) => text
  | _ => dflt
  end.

(** The number of a key that holds an [int], [dflt] when it is absent. *)
Definition number_of (field : option pyval) (dflt : Z) : Z :=
  match field with
  | Some (PInt z) => z
  | _ => dflt
  end.

(** A key that is absent or holds an [int]. *)
Definition numeric (field : option pyval) : Prop :=
  field = None ∨ ∃ z, field = Some (PInt z).

Lemma text_or_ok field dflt text :
  text_or field dflt = Ok text ↔ text = text_of field dflt ∧ textual field.
Proof.
  unfold text_or, text_of, textual, set_string.
  destruct field as [[| | |s]|]; split;
    try discriminate;
    try (intros [_ [Hno | [t Hno]]]; discriminate).
  - intros [= <-]. eauto.
  - intros [-> _]. reflexivity.
  - intros [= <-]. eauto.
  - intros [-> _]. reflexivity.
Qed.

Lemma period_end_ok c duration stop :
  period_end c duration = Ok stop ↔
  stop = int_time c + number_of duration 3600
  ∧ numeric duration
  ∧ 0 ≤ int_time c + number_of duration 3600 < 2 ^ 64.
Proof.
  unfold period_end, number_of, numeric.
  destruct duration as [[|d| |]|]; simpl; split;
    try discriminate;
    try (intros (_ & [Hno | [z Hno]] & _); discriminate).
  - intros Hstop. apply set_uint64_ok in Hstop as [-> Hfit]. eauto 6.
  - intros (-> & _ & Hfit). apply set_uint64_ok. auto.
  - intros Hstop. apply set_uint64_ok in Hstop as [-> Hfit]. eauto 6.
  - intros (-> & _ & Hfit). apply set_uint64_ok. auto.
Qed.

Lemma set_enum_ok valid dflt field z :
  set_enum valid (default (PInt dflt) field) = Ok z ↔
  z = number_of field dflt ∧ numeric field ∧ valid (number_of field dflt) = true.
Proof.
  unfold set_enum, number_of, numeric.
  destruct field as [[|n| |]|]; simpl; split;
    try discriminate;
    try (intros (_ & [Hno | [k Hno]] & _); discriminate).
  - destruct (valid n) eqn:Hvalid; [|discriminate]. intros [= <-]. eauto 6.
  - intros (-> & _ & ->). reflexivity.
  - destruct (valid dflt) eqn:Hvalid; [|discriminate]. intros [= <-]. eauto 6.
  - intros (-> & _ & ->). reflexivity.
Qed.

(** The loop over [affected_entities] comes back exactly when every entity
    is a [str], with the entities appended in order. *)
Lemma informed_entities_ok entities acc out :
  for_each (λ acc entity_id, try! route := set_string entity_id in
                             Ok (acc ++ [route])%list) entities acc = Ok out
  ↔ ∃ texts, entities = PStr <$> texts ∧ out = (acc ++ texts)%list.
Proof.
  revert acc. induction entities as [|entity entities IH]; intros acc; simpl.
  - split.
    + intros [= <-]. exists []. rewrite app_nil_r. split; reflexivity.
    + intros ([|? ?] & Htexts & ->); [|discriminate].
      rewrite app_nil_r. reflexivity.
  - destruct entity as [| | |s]; simpl;
      try (split; [discriminate|intros ([|? ?] & Htexts & _); discriminate]).
    rewrite IH. split.
    + intros (texts & -> & ->). exists (s :: texts).
      rewrite <- app_assoc. split; reflexivity.
    + intros ([|t texts] & Htexts & ->); [discriminate|].
      injection Htexts as -> ->. exists texts.
      rewrite <- app_assoc. split; reflexivity.
Qed.

(** The text of a [str]. *)
Definition as_text (v : pyval) : option string :=
  match v with
  | PStr text => Some text
  | _ => None
  end.

Section Alerts.
Context `{Runtime}.

(** The alert inputs can be written into an alert: the clock and the end of
    the active period fit their fields, [header] and [description] are
    absent or text, [duration], [cause] and [effect] are absent or [int]s,
    the two enum numbers exist, and every affected entity is text. *)
Definition buildable (a : alert_data) (c : clock) : Prop :=
  0 ≤ int_time c < 2 ^ 64
  ∧ textual (alert_header a)
  ∧ textual (alert_description a)
  ∧ numeric (alert_duration a)
  ∧ 0 ≤ int_time c + number_of (alert_duration a) 3600 < 2 ^ 64
  ∧ (∀ entities, alert_affected_entities a = Some entities →
       ∃ texts, entities = PStr <$> texts)
  ∧ numeric (alert_cause a) ∧ valid_cause (number_of (alert_cause a) 1) = true
  ∧ numeric (alert_effect a) ∧ valid_effect (number_of (alert_effect a) 8) = true.

(** The message of buildable inputs, key by key with its default. *)
Definition alert_message (a : alert_data) (c : clock) : FeedMessage :=
  {| header := {| gtfs_realtime_version := Some "2.0";
                  timestamp := Some (int_time c) |};
     entity := [{|
       entity_id := "alert_" ++ py_str (default (PStr (uuid4 c)) (alert_id a));
       entity_payload := AlertOf {|
         header_text := [text_of (alert_header a) "Service Alert"];
         description_text := [text_of (alert_description a) "No details available"];
         active_period :=
           [(int_time c, int_time c + number_of (alert_duration a) 3600)];
         informed_entity :=
           match alert_affected_entities a with
           | Some entities => omap as_text entities
           | None => ["all_routes"]
           end;
         cause := number_of (alert_cause a) 1;
         effect := number_of (alert_effect a) 8 |} |}] |}.

Lemma omap_as_text (texts : list string) : omap as_text (PStr <$> texts) = texts.
Proof.
  induction texts as [|t texts IH]; [reflexivity|].
  rewrite fmap_cons. simpl. f_equal. exact IH.
Qed.

(** X7.  [create_service_alert] returns a message exactly when its inputs
    are buildable, and the message is then the one that takes each key with
    its default: id [alert_] followed by the given id or a fresh uuid, the
    texts "Service Alert" and "No details available", an active period from
    now to now plus the duration or 3600, the affected entities in order or
    the one entity [all_routes], cause 1 and effect 8.  Anything else in a
    key (a number for a text, a float or text for the duration, an entity
    that is not text, an enum number that does not exist) makes it raise. *)
Theorem service_alert_is_built a c msg :
  create_service_alert a c = Ok msg ↔ buildable a c ∧ msg = alert_message a c.
Proof.
  unfold create_service_alert, buildable, alert_message. split.
  - intros Hmsg. peel Hmsg. injection Hmsg as <-.
    repeat match goal with
           | Hs : make_header c = Ok _ |- _ =>
               pose proof (proj1 (make_header_fits c) (ex_intro _ _ Hs));
               apply make_header_ok in Hs as ->
           | Hs : text_or _ _ = Ok _ |- _ => apply text_or_ok in Hs as [-> ?]
           | Hs : period_end _ _ = Ok _ |- _ => apply period_end_ok in Hs as (-> & ? & ?)
           | Hs : set_enum _ _ = Ok _ |- _ => apply set_enum_ok in Hs as (-> & ? & ?)
           | Hs : set_uint64 _ = Ok _ |- _ => apply set_uint64_ok in Hs as [-> ?]
           end.
    destruct (alert_affected_entities a) as [entities|].
    + match goal with Hs : for_each _ _ _ = Ok _ |- _ =>
        apply informed_entities_ok in Hs as (texts & -> & ->) end.
      rewrite omap_as_text. simpl.
      repeat split; try assumption; try lia.
      intros ? [= <-]. eauto.
    + match goal with Hs : Ok _ = Ok _ |- _ => injection Hs as <- end.
      repeat split; try assumption; try lia. discriminate.
  - intros [(Hnow & Hhdr & Hdesc & Hnum & Hend & Hent & Hcn & Hcv & Hen & Hev) ->].
    assert (make_header c
            = Ok {| gtfs_realtime_version := Some "2.0";
                    timestamp := Some (int_time c) |}) as ->.
    { destruct (proj2 (make_header_fits c) Hnow) as [hdr Hok].
      rewrite Hok. apply make_header_ok in Hok as ->. reflexivity. }
    simpl.
    rewrite (proj2 (text_or_ok _ _ _) (conj eq_refl Hhdr)). simpl.
    rewrite (proj2 (text_or_ok _ _ _) (conj eq_refl Hdesc)). simpl.
    rewrite (proj2 (set_uint64_ok _ _) (conj eq_refl Hnow)). simpl.
    rewrite (proj2 (period_end_ok _ _ _) (conj eq_refl (conj Hnum Hend))). simpl.
    rewrite (proj2 (set_enum_ok _ _ _ _) (conj eq_refl (conj Hcn Hcv))).
    rewrite (proj2 (set_enum_ok _ _ _ _) (conj eq_refl (conj Hen Hev))).
    destruct (alert_affected_entities a) as [entities|]; simpl; [|reflexivity].
    destruct (Hent entities eq_refl) as [texts ->].
    rewrite (proj2 (informed_entities_ok (PStr <$> texts) [] texts))
      by (exists texts; split; reflexivity).
    simpl. rewrite omap_as_text. reflexivity.
Qed.

End Alerts.

End AlertFacts.

(** ** More on the cycle *)

Module CycleFacts.

Import Feed Builder Pipeline PipelineClaims AcquisitionFacts.

(** A saved service alert. *)
Definition as_alert (msg : FeedMessage) : string * FeedMessage :=
  ("service_alert", msg).

Section Cycle.
Context `{Runtime}.

Lemma create_vehicle_position_raises prev gps c e prev' :
  create_vehicle_position prev gps c = (Raise e, prev') → prev' = prev.
Proof.
  unfold create_vehicle_position.
  destruct (make_header c) as [hdr|] eqn:Hhdr; simpl;
    [|intros [= _ <-]; reflexivity].
  destruct (trip_descriptor gps None c) as [trip|]; simpl;
    [|intros [= _ <-]; reflexivity].
  destruct (FeedClaims.estimate_total prev gps c) as [[position table] ->].
  assert (set_uint64 (int_time c) = Ok (int_time c)) as ->.
  { unfold make_header in Hhdr.
    destruct (set_uint64 (int_time c)) as [ts|] eqn:Hts; [|discriminate].
    apply FeedClaims.set_uint64_ok in Hts as [-> _]. reflexivity. }
  simpl. discriminate.
Qed.

(** The alerts that build, up to the first that does not. *)
Lemma save_alerts_built before built rest c saved0 :
  Forall2 (λ a msg, create_service_alert a c = Ok msg) before built →
  save_alerts (before ++ rest) c saved0
  = save_alerts rest c (saved0 ++ (as_alert <$> built))%list.
Proof.
  intros Hbuilt. revert saved0.
  induction Hbuilt as [|a msg before built Hmsg _ IH]; intros saved0; simpl.
  - rewrite app_nil_r. reflexivity.
  - rewrite Hmsg, IH, <- app_assoc. reflexivity.
Qed.

(** X9.  Once the vehicle position and the trip update of a cycle are
    built, both are saved whatever the alerts do.  The alerts are built and
    saved one after the other; the first that raises ends the cycle with
    its exception: the alerts before it are saved, the alerts after it are
    never built. *)
Theorem first_bad_alert_ends_the_cycle prev gps g c position prev' update :
  create_vehicle_position prev gps c = (Ok position, prev') →
  create_trip_update gps g c = Ok update →
  (∀ before built bad e after,
     Schedule.alerts g = Some (before ++ bad :: after)%list →
     Forall2 (λ a msg, create_service_alert a c = Ok msg) before built →
     create_service_alert bad c = Raise e →
     build_feeds prev gps g c
     = {| positions := prev';
          saved := ([("vehicle_position", position); ("trip_update", update)]
                    ++ (as_alert <$> built))%list;
          ended := Raised e |})
  ∧ (∀ alerts built,
       Schedule.alerts g = Some alerts →
       Forall2 (λ a msg, create_service_alert a c = Ok msg) alerts built →
       build_feeds prev gps g c
       = {| positions := prev';
            saved := ([("vehicle_position", position); ("trip_update", update)]
                      ++ (as_alert <$> built))%list;
            ended := Done |}).
Proof.
  intros Hposition Hupdate. unfold build_feeds. rewrite Hposition, Hupdate.
  split.
  - intros before built bad e after -> Hbuilt Hbad. simpl.
    rewrite (save_alerts_built before built (bad :: after) c _ Hbuilt). simpl.
    rewrite Hbad. reflexivity.
  - intros alerts built -> Hbuilt. simpl.
    rewrite <- (app_nil_r alerts).
    rewrite (save_alerts_built alerts built [] c _ Hbuilt). reflexivity.
Qed.

(** What the loop over the alerts saves: the messages of some of the alerts,
    of all of them when it runs to its end. *)
Lemma save_alerts_shape alerts c saved0 :
  ∃ built,
    fst (save_alerts alerts c saved0) = (saved0 ++ (as_alert <$> built))%list
    ∧ (length built ≤ length alerts)%nat
    ∧ (snd (save_alerts alerts c saved0) = Done → length built = length alerts).
Proof.
  revert saved0. induction alerts as [|a alerts IH]; intros saved0; simpl.
  - exists []. rewrite app_nil_r. repeat split; reflexivity || lia.
  - destruct (create_service_alert a c) as [msg|e]; simpl.
    + destruct (IH (saved0 ++ [("service_alert", msg)])%list)
        as (built & Hsaved & Hle & Hdone).
      exists (msg :: built). rewrite Hsaved, <- app_assoc. simpl.
      repeat split; [lia|]. intros Hend. rewrite (Hdone Hend). reflexivity.
    + exists []. rewrite app_nil_r. simpl. repeat split; [lia|discriminate].
Qed.

(** The kinds a cycle can save, in the order it saves them. *)
Definition full_order (gtfs : option Schedule.gtfs_data) : list string :=
  "vehicle_position" :: "trip_update"
  :: replicate (length (default [] (gtfs ≫= Schedule.alerts))) "service_alert".

Lemma build_feeds_order prev gps g c :
  fst <$> saved (build_feeds prev gps g c) `prefix_of` full_order (Some g)
  ∧ (saved (build_feeds prev gps g c) = [] →
     positions (build_feeds prev gps g c) = prev)
  ∧ (ended (build_feeds prev gps g c) = Done →
     fst <$> saved (build_feeds prev gps g c) = full_order (Some g)).
Proof.
  unfold build_feeds, full_order. simpl.
  destruct (create_vehicle_position prev gps c) as [[position|e] prev'] eqn:Hposition;
    simpl.
  - destruct (create_trip_update gps g c) as [update|e]; simpl.
    + destruct (Schedule.alerts g) as [alerts|]; simpl.
      * destruct (save_alerts_shape alerts c
                    [("vehicle_position", position); ("trip_update", update)])
          as (built & Hsaved & Hle & Hdone).
        destruct (save_alerts alerts c _) as [saved3 how]. simpl in *.
        subst saved3. simpl.
        assert (fst <$> (as_alert <$> built)
                = replicate (length built) "service_alert") as Hkinds.
        { clear. induction built as [|m built IH]; [reflexivity|].
          rewrite !fmap_cons. simpl. f_equal. exact IH. }
        change (list_fmap (string * FeedMessage)%type string fst (as_alert <$> built))
          with (fst <$> (as_alert <$> built)).
        rewrite Hkinds.
        repeat split.
        -- do 2 apply prefix_cons.
           exists (replicate (length alerts - length built) "service_alert").
           rewrite <- replicate_add. f_equal. lia.
        -- discriminate.
        -- intros Hend. rewrite (Hdone Hend). reflexivity.
      * repeat split; [reflexivity|discriminate].
    + repeat split; [|discriminate..].
      apply prefix_cons, prefix_nil.
  - apply create_vehicle_position_raises in Hposition as ->.
    repeat split; [apply prefix_nil|discriminate].
Qed.

(** X16.  Whatever its inputs, a cycle saves its messages in one order:
    the vehicle position, then the trip update, then one service alert per
    alert of the schedule; what it has saved when it ends is a beginning
    of that sequence, and all of it when the cycle ends normally.  A cycle
    that saved nothing left the table of previous positions as it was. *)
Theorem cycle_saves_in_order prev cfg gps gtfs c :
  fst <$> saved (process_data prev cfg gps gtfs c) `prefix_of` full_order gtfs
  ∧ (saved (process_data prev cfg gps gtfs c) = [] →
     positions (process_data prev cfg gps gtfs c) = prev)
  ∧ (ended (process_data prev cfg gps gtfs c) = Done →
     fst <$> saved (process_data prev cfg gps gtfs c) = full_order gtfs).
Proof.
  destruct (process_data_cases prev cfg gps gtfs c)
    as [(how & -> & Hhow) | (g & gps' & -> & ->)].
  - simpl. repeat split; [apply prefix_nil|]. intros Hdone. contradiction.
  - apply build_feeds_order.
Qed.

(** The telemetry after [gps_data.update]: the five keys of the resolved
    context replace the telemetry's own. *)
Definition merge_context (gps : gmap string pyval)
    (device_id name trip_id : pyval) (route_id : string) (direction_id : pyval)
  : gmap string pyval :=
  <["direction_id" := direction_id]>
    (<["route_id" := PStr route_id]>
       (<["trip_id" := trip_id]>
          (<["label" := name]>
             (<["device_id" := device_id]> gps)))).

(** A cycle whose context resolution picks a trip: what is left is the
    reading of the four keys and the builders. *)
Lemma process_data_resolved prev cfg gps g c route current_trip :
  gps ≠ ∅ → no_schedule (Some g) = false →
  no_vehicle (get_vehicle_info cfg (dict_get_none gps "device_id")) = false →
  configured_route cfg gps = Some route →
  select_trip (default [] (route_trips route)) (strftime_HMS c)
  = Ok (Some current_trip) →
  process_data prev cfg gps (Some g) c
  = match (try! trip_id := dict_item current_trip "trip_id" in
           try! direction_id := dict_item current_trip "direction_id" in
           try! device_id :=
             dict_item (vehicle_fields (get_vehicle_info cfg
                                          (dict_get_none gps "device_id")))
               "device_id" in
           try! name :=
             dict_item (vehicle_fields (get_vehicle_info cfg
                                          (dict_get_none gps "device_id")))
               "label" in
           Ok (merge_context gps device_id name trip_id
                 (py_str (dict_get_none gps "route_id")) direction_id)) with
    | Raise e => {| positions := prev; saved := []; ended := Raised e |}
    | Ok gps' => build_feeds prev gps' g c
    end.
Proof.
  intros Hgps Hschedule Hvehicle Hroute Htrip.
  unfold process_data, configured_route in *.
  rewrite (bool_decide_eq_false_2 _ Hgps), Hschedule. simpl.
  rewrite Hvehicle, Hroute, Htrip. reflexivity.
Qed.

(** X8.  When the selected trip has no [trip_id] or no [direction_id], or
    the vehicle's configuration no [device_id] or no [label], the cycle ends
    with a [KeyError]: nothing is built or saved and the table of previous
    positions is as it was. *)
Theorem missing_context_key_raises prev cfg gps g c route current_trip :
  gps ≠ ∅ → no_schedule (Some g) = false →
  no_vehicle (get_vehicle_info cfg (dict_get_none gps "device_id")) = false →
  configured_route cfg gps = Some route →
  select_trip (default [] (route_trips route)) (strftime_HMS c)
  = Ok (Some current_trip) →
  current_trip !! "trip_id" = None
  ∨ current_trip !! "direction_id" = None
  ∨ vehicle_fields (get_vehicle_info cfg (dict_get_none gps "device_id"))
      !! "device_id" = None
  ∨ vehicle_fields (get_vehicle_info cfg (dict_get_none gps "device_id"))
      !! "label" = None →
  process_data prev cfg gps (Some g) c
  = {| positions := prev; saved := []; ended := Raised KeyError |}.
Proof.
  intros Hgps Hschedule Hvehicle Hroute Htrip Hmissing.
  rewrite (process_data_resolved prev cfg gps g c route current_trip)
    by assumption.
  unfold dict_item.
  destruct (current_trip !! "trip_id") as [trip_id|]; simpl; [|reflexivity].
  destruct (current_trip !! "direction_id") as [direction_id|]; simpl;
    [|reflexivity].
  destruct (vehicle_fields _ !! "device_id") as [device_id|]; simpl;
    [|reflexivity].
  destruct (vehicle_fields _ !! "label") as [name|]; simpl; [|reflexivity].
  destruct Hmissing as [? | [? | [? | ?]]]; discriminate.
Qed.

Lemma merge_context_lookups gps device_id name trip_id route_id direction_id :
  dict_get_none (merge_context gps device_id name trip_id route_id direction_id)
    "device_id" = device_id
  ∧ dict_get (merge_context gps device_id name trip_id route_id direction_id)
      "label" device_id = name
  ∧ dict_get_none (merge_context gps device_id name trip_id route_id direction_id)
      "trip_id" = trip_id
  ∧ dict_get_none (merge_context gps device_id name trip_id route_id direction_id)
      "route_id" = PStr route_id
  ∧ dict_get (merge_context gps device_id name trip_id route_id direction_id)
      "direction_id" (PInt 0) = direction_id
  ∧ ∀ key dflt,
      key ∉ ["device_id"; "label"; "trip_id"; "route_id"; "direction_id"] →
      dict_get (merge_context gps device_id name trip_id route_id direction_id)
        key dflt = dict_get gps key dflt.
Proof.
  unfold merge_context, dict_get_none, dict_get.
  repeat split; try (by simplify_map_eq).
  intros key dflt Hkey.
  rewrite !lookup_insert_ne; [reflexivity|intros <-; apply Hkey; set_solver..].
Qed.

(** X17.  In a cycle that resolves its context the messages are built from
    the telemetry with the configured identity laid over it: the vehicle
    position names the vehicle by the [device_id] and [label] of the
    configuration, not by what the telemetry says, and carries the
    [trip_id] of the selected trip and the route the telemetry named; the
    table of previous positions is touched under the configured device id
    only.  Every other key of the telemetry, the coordinates among them,
    is read as the telemetry has it. *)
Theorem configured_identity_overrides_telemetry
    prev cfg gps g c route current_trip device_id name trip_id direction_id :
  gps ≠ ∅ → no_schedule (Some g) = false →
  no_vehicle (get_vehicle_info cfg (dict_get_none gps "device_id")) = false →
  configured_route cfg gps = Some route →
  select_trip (default [] (route_trips route)) (strftime_HMS c)
  = Ok (Some current_trip) →
  current_trip !! "trip_id" = Some trip_id →
  current_trip !! "direction_id" = Some direction_id →
  vehicle_fields (get_vehicle_info cfg (dict_get_none gps "device_id"))
    !! "device_id" = Some device_id →
  vehicle_fields (get_vehicle_info cfg (dict_get_none gps "device_id"))
    !! "label" = Some name →
  let merged := merge_context gps device_id name trip_id
                  (py_str (dict_get_none gps "route_id")) direction_id in
  process_data prev cfg gps (Some g) c = build_feeds prev merged g c
  ∧ (∀ key dflt,
       key ∉ ["device_id"; "label"; "trip_id"; "route_id"; "direction_id"] →
       dict_get merged key dflt = dict_get gps key dflt)
  ∧ ∀ position prev',
      create_vehicle_position prev merged c = (Ok position, prev') →
      ∃ e v,
        entity position = [e]
        ∧ entity_payload e = Vehicle v
        ∧ entity_id e = py_str device_id
        ∧ Feed.id (vp_vehicle v) = py_str device_id
        ∧ Feed.label (vp_vehicle v) = py_str name
        ∧ Feed.trip_id (vp_trip v) = py_str trip_id
        ∧ Feed.route_id (vp_trip v) = py_str (dict_get_none gps "route_id")
        ∧ ∀ other, other ≠ py_str device_id → prev' !! other = prev !! other.
Proof.
  intros Hgps Hschedule Hvehicle Hroute Htrip Htid Hdir Hdev Hname merged.
  destruct (merge_context_lookups gps device_id name trip_id
              (py_str (dict_get_none gps "route_id")) direction_id)
    as (Ldev & Lname & Ltrip & Lroute & _ & Lother).
  fold merged in Ldev, Lname, Ltrip, Lroute, Lother.
  split; [|split; [exact Lother|]].
  - rewrite (process_data_resolved prev cfg gps g c route current_trip)
      by assumption.
    unfold dict_item. rewrite Htid, Hdir, Hdev, Hname. reflexivity.
  - intros position prev' Hposition.
    pose proof Hposition as Hbuilt.
    unfold create_vehicle_position in Hbuilt.
    destruct (make_header c) as [hdr|]; simpl in Hbuilt; [|discriminate].
    destruct (trip_descriptor merged None c) as [trip|] eqn:Hdescriptor;
      simpl in Hbuilt; [|discriminate].
    destruct (Heading.estimate prev merged c) as [[place table]|] eqn:Hestimate;
      [|discriminate].
    destruct (set_uint64 (int_time c)) as [ts|]; simpl in Hbuilt; [|discriminate].
    injection Hbuilt as <- <-.
    unfold trip_descriptor in Hdescriptor. BuilderFacts.peel Hdescriptor.
    injection Hdescriptor as <-.
    eexists _, _. split; [reflexivity|]. split; [reflexivity|]. simpl.
    unfold vehicle_descriptor. simpl. rewrite Ldev, Lname, Ltrip, Lroute.
    repeat split.
    intros other Hother.
    destruct (BuilderFacts.estimate_shape prev merged c place table Hestimate)
      as [[_ ->] | ->]; [reflexivity|].
    unfold HeadingClaims.device_of. rewrite Ldev.
    apply lookup_insert_ne. congruence.
Qed.

End Cycle.

End CycleFacts.

(** ** More on trip updates *)

Module TripUpdateFacts.

Import Feed Builder FeedClaims BuilderFacts.

Section Updates.
Context `{Runtime}.

(** X20.  [get_trip_stops] reads the schedule dict key by key: without a
    [stop_sequences] key it raises [KeyError]; for a trip that has no stop
    sequence, or an empty one, it returns the empty list even when the
    [stops] key is missing; for a trip with at least one entry a missing
    [stops] key raises [KeyError].  [create_trip_update] passes the
    exception on. *)
Theorem get_trip_stops_missing_keys trip g :
  (Schedule.stop_sequences g = None →
   Schedule.get_trip_stops trip g = Raise KeyError)
  ∧ (∀ sequences,
       Schedule.stop_sequences g = Some sequences →
       sequences !! trip = None ∨ sequences !! trip = Some [] →
       Schedule.get_trip_stops trip g = Ok [])
  ∧ (∀ sequences entry entries,
       Schedule.stop_sequences g = Some sequences →
       sequences !! trip = Some (entry :: entries) →
       Schedule.stops g = None →
       Schedule.get_trip_stops trip g = Raise KeyError)
  ∧ (∀ gps c e,
       trip = py_str (dict_get_none gps "trip_id") →
       Schedule.get_trip_stops trip g = Raise e →
       ∀ msg, create_trip_update gps g c ≠ Ok msg).
Proof.
  unfold Schedule.get_trip_stops. repeat split.
  - intros ->. reflexivity.
  - intros sequences -> [Hnone | Hempty]; simpl;
      [rewrite Hnone|rewrite Hempty]; reflexivity.
  - intros sequences entry entries -> Hentries Hstops. simpl.
    rewrite Hentries. simpl.
    unfold Schedule.join_stop. rewrite Hstops. reflexivity.
  - intros gps c e -> Hraise msg Hmsg.
    unfold create_trip_update in Hmsg. peel Hmsg.
    unfold Schedule.get_trip_stops in *. congruence.
Qed.

(** X19.  A trip update that is built names its entity [trip_] followed by
    the trip id, carries the trip, route and vehicle of the telemetry, the
    vehicle's label being its device id when the telemetry has no label,
    and gives as the trip's [start_time] and [start_date] the time and the
    date of the clock at the moment of building, not a time of the
    schedule.  For a trip the index has no stop sequence for, the update is
    built all the same, with no stop-time update. *)
Theorem trip_update_describes_the_trip gps g c msg :
  create_trip_update gps g c = Ok msg →
  ∃ e t,
    entity msg = [e]
    ∧ entity_payload e = TripUpdateOf t
    ∧ entity_id e = "trip_" ++ py_str (dict_get_none gps "trip_id")
    ∧ trip_id (tu_trip t) = py_str (dict_get_none gps "trip_id")
    ∧ route_id (tu_trip t) = py_str (dict_get_none gps "route_id")
    ∧ start_time (tu_trip t) = Some (strftime_HMS c)
    ∧ start_date (tu_trip t) = strftime_Ymd c
    ∧ id (tu_vehicle t) = py_str (dict_get_none gps "device_id")
    ∧ label (tu_vehicle t)
      = py_str (dict_get gps "label" (dict_get_none gps "device_id"))
    ∧ tu_timestamp t = int_time c
    ∧ (∀ sequences,
         Schedule.stop_sequences g = Some sequences →
         sequences !! py_str (dict_get_none gps "trip_id") = None →
         stop_time_update t = []).
Proof.
  unfold create_trip_update. intros Hmsg. peel Hmsg. injection Hmsg as <-.
  repeat match goal with
         | Hs : trip_descriptor _ _ _ = Ok _ |- _ =>
             unfold trip_descriptor in Hs; peel Hs; injection Hs as <-
         | Hs : set_uint64 _ = Ok _ |- _ => apply set_uint64_ok in Hs as [-> _]
         end.
  eexists _, _. split; [reflexivity|]. split; [reflexivity|]. simpl.
  repeat split.
  intros sequences Hsequences Hunknown.
  match goal with Hs : Schedule.get_trip_stops _ _ = Ok _ |- _ =>
    unfold Schedule.get_trip_stops in Hs; rewrite Hsequences in Hs;
    simpl in Hs; rewrite Hunknown in Hs; injection Hs as <- end.
  match goal with Hs : for_each _ [] [] = Ok _ |- _ =>
    simpl in Hs; injection Hs as <- end.
  reflexivity.
Qed.

End Updates.

End TripUpdateFacts.

(** ** Persistence *)

Module PersistenceFacts.

Import Acquisition.

(** The directory part [os.path.join] puts before a relative name. *)
Definition with_separator (a : string) : string :=
  match a with
  | EmptyString => EmptyString
  | _ => if String.eqb (substring (String.length a - 1) 1 a) "/"
         then a else a ++ "/"
  end.

Lemma append_cons x (a b : string) : String x a ++ b = String x (a ++ b).
Proof. reflexivity. Qed.

Lemma append_assoc (a b c : string) : (a ++ b) ++ c = a ++ (b ++ c).
Proof.
  induction a as [|x a IH]; [reflexivity|].
  rewrite !append_cons, IH. reflexivity.
Qed.

Lemma append_inv_head (a b c : string) : a ++ b = a ++ c → b = c.
Proof. apply (inj (String.app a)). Qed.

(** A name that does not begin with a slash. *)
Definition relative (b : string) : Prop := ∀ rest, b ≠ String "/" rest.

Lemma path_join_relative a b :
  relative b → path_join a b = with_separator a ++ b.
Proof.
  intros Hrelative. unfold path_join, with_separator.
  assert (match b with
          | String "/" _ => b
          | _ => match a with
                 | EmptyString => b
                 | _ => if String.eqb (substring (String.length a - 1) 1 a) "/"
                        then a ++ b else a ++ "/" ++ b
                 end
          end
          = match a with
            | EmptyString => b
            | _ => if String.eqb (substring (String.length a - 1) 1 a) "/"
                   then a ++ b else a ++ "/" ++ b
            end) as ->.
  { destruct b as [|x b]; [reflexivity|].
    destruct x as [[] [] [] [] [] [] [] []]; try reflexivity.
    exfalso. apply (Hrelative b). reflexivity. }
  destruct a as [|y a]; [reflexivity|].
  destruct (String.eqb _ "/"); [reflexivity|].
  rewrite append_assoc. reflexivity.
Qed.

Lemma relative_append a tail : relative a → relative tail → relative (a ++ tail).
Proof.
  intros Ha Htail rest. destruct a as [|x a]; [apply Htail|].
  rewrite append_cons. intros [= -> _]. apply (Ha a). reflexivity.
Qed.

Lemma last_char_s (a : string) :
  substring (String.length (a ++ "s") - 1) 1 (a ++ "s") = "s".
Proof.
  induction a as [|x a IH]; [reflexivity|].
  rewrite append_cons.
  assert (∃ n, String.length (a ++ "s") = S n) as [n Hn].
  { clear. induction a as [|y a [n IH]]; [exists 0%nat; reflexivity|].
    rewrite append_cons. simpl. eauto. }
  simpl String.length. rewrite Hn in *. simpl in *.
  rewrite Nat.sub_0_r in IH. exact IH.
Qed.

Lemma with_separator_s (a : string) : with_separator (a ++ "s") = a ++ "s/".
Proof.
  unfold with_separator. rewrite last_char_s. simpl String.eqb.
  destruct (a ++ "s") as [|x rest] eqn:Hnonempty.
  - destruct a; discriminate.
  - rewrite <- Hnonempty, append_assoc. reflexivity.
Qed.

(** The path of a message type that does not begin with a slash: the
    output directory, the type with an [s], and the type with the stamp. *)
Lemma save_path_relative output_dir message_type stamp :
  relative message_type →
  save_path output_dir message_type stamp
  = with_separator output_dir
    ++ message_type ++ "s/" ++ message_type ++ "_" ++ stamp ++ ".pb".
Proof.
  intros Hrelative. unfold save_path.
  rewrite (path_join_relative output_dir (message_type ++ "s"))
    by (apply relative_append; [exact Hrelative|discriminate]).
  rewrite (path_join_relative _ (message_type ++ "_" ++ stamp ++ ".pb"))
    by (apply relative_append; [exact Hrelative|discriminate]).
  rewrite <- (append_assoc (with_separator output_dir) message_type "s").
  rewrite with_separator_s.
  rewrite !append_assoc. reflexivity.
Qed.

(** The messages of one cycle handed to [save_protobuf] one after the
    other, all within the second that renders as [stamp]. *)
Definition persist (output_dir stamp : string) (files : gmap string Feed.FeedMessage)
    (saved : list (string * Feed.FeedMessage)) : gmap string Feed.FeedMessage :=
  foldl (λ written m, save_protobuf output_dir stamp written m.2 m.1) files saved.

Lemma persist_app output_dir stamp files saved1 saved2 :
  persist output_dir stamp files (saved1 ++ saved2)
  = persist output_dir stamp (persist output_dir stamp files saved1) saved2.
Proof. unfold persist. apply foldl_app. Qed.

(** The paths of the three kinds differ, whatever the output directory and
    the stamps. *)
Lemma kinds_have_their_own_paths output_dir stamp stamp' :
  save_path output_dir "vehicle_position" stamp
  ≠ save_path output_dir "trip_update" stamp'
  ∧ save_path output_dir "vehicle_position" stamp
    ≠ save_path output_dir "service_alert" stamp'
  ∧ save_path output_dir "trip_update" stamp
    ≠ save_path output_dir "service_alert" stamp'.
Proof.
  rewrite !save_path_relative by discriminate.
  repeat split; intros Heq; apply append_inv_head in Heq; discriminate.
Qed.

(** Alerts saved under one stamp all go to one path: the last one stays. *)
Lemma persist_alerts output_dir stamp files alerts path :
  persist output_dir stamp files (CycleFacts.as_alert <$> alerts) !! path
  = if decide (path = save_path output_dir "service_alert" stamp)
    then match last alerts with
         | Some msg => Some msg
         | None => files !! path
         end
    else files !! path.
Proof.
  revert files. induction alerts as [|msg alerts IH]; intros files.
  - simpl. destruct (decide _); reflexivity.
  - rewrite fmap_cons. simpl. rewrite IH, last_cons. unfold save_protobuf. simpl.
    destruct (decide (path = save_path output_dir "service_alert" stamp)) as [->|Hne].
    + destruct (last alerts); [reflexivity|]. apply lookup_insert_eq.
    + apply lookup_insert_ne. congruence.
Qed.

(** X18.  The files of the three kinds never coincide: each kind is written
    under its own directory and name, whatever the output directory and the
    time.  When the saves of a cycle fall within one second, the vehicle
    position and the trip update each have their file, every alert of the
    cycle is written to the same file, of which the last alert is what
    stays, and no other file is touched. *)
Theorem one_file_per_kind_and_second output_dir stamp files position update alerts :
  let written :=
    persist output_dir stamp files
      ([("vehicle_position", position); ("trip_update", update)]
       ++ (CycleFacts.as_alert <$> alerts))%list in
  (∀ stamp1 stamp2,
     save_path output_dir "vehicle_position" stamp1
     ≠ save_path output_dir "trip_update" stamp2
     ∧ save_path output_dir "vehicle_position" stamp1
       ≠ save_path output_dir "service_alert" stamp2
     ∧ save_path output_dir "trip_update" stamp1
       ≠ save_path output_dir "service_alert" stamp2)
  ∧ written !! save_path output_dir "vehicle_position" stamp = Some position
  ∧ written !! save_path output_dir "trip_update" stamp = Some update
  ∧ written !! save_path output_dir "service_alert" stamp
    = match last alerts with
      | Some msg => Some msg
      | None => files !! save_path output_dir "service_alert" stamp
      end
  ∧ ∀ path,
      path ≠ save_path output_dir "vehicle_position" stamp →
      path ≠ save_path output_dir "trip_update" stamp →
      path ≠ save_path output_dir "service_alert" stamp →
      written !! path = files !! path.
Proof.
  intros written. subst written.
  destruct (kinds_have_their_own_paths output_dir stamp stamp)
    as (Hpu & Hpa & Hua).
  rewrite persist_app.
  split; [intros; apply kinds_have_their_own_paths|].
  unfold persist at 2. simpl. unfold save_protobuf. simpl.
  repeat split.
  - rewrite persist_alerts, decide_False by exact Hpa.
    rewrite lookup_insert_ne by congruence. apply lookup_insert_eq.
  - rewrite persist_alerts, decide_False by exact Hua.
    apply lookup_insert_eq.
  - rewrite persist_alerts, decide_True by reflexivity.
    destruct (last alerts); [reflexivity|].
    rewrite !lookup_insert_ne by congruence. reflexivity.
  - intros path Hp Hu Ha.
    rewrite persist_alerts, decide_False by exact Ha.
    rewrite !lookup_insert_ne by congruence. reflexivity.
Qed.

End PersistenceFacts.

(** ** The schedule archive *)

Module ArchiveFacts.

Import Schedule Pipeline Acquisition.

Section Archive.
Context `{Runtime}.





End Archive.

End ArchiveFacts.

(** ** The rest of the engine on concrete inputs *)

Module Scenarios.

Import Schedule Feed Heading Builder Pipeline Acquisition Examples.

Local Open Scope Z_scope.

Lemma on_route_not_empty route_id : PipelineExamples.on_route route_id ≠ ∅.
Proof.
  intros Hempty. apply (f_equal (λ gps, gps !! "route_id")) in Hempty.
  unfold PipelineExamples.on_route in Hempty.
  rewrite lookup_insert_eq, lookup_empty in Hempty. discriminate.
Qed.

(** A device the configuration of the bus does not list reports on route
    [R1]: it is given its own name as configuration, and the cycle stops at
    the route lookup. *)
Lemma ghost_vehicle_has_no_route :
  let gps := <["device_id" := PStr "ghost"]> (PipelineExamples.on_route "R1") in
  get_vehicle_info PipelineExamples.bus_config (PStr "ghost")
  = AcquisitionFacts.default_vehicle (PStr "ghost")
  ∧ process_data ∅ PipelineExamples.bus_config gps
      (Some FeedExamples.empty_index) noon
    = AcquisitionFacts.stopped ∅ NoRouteInformation.
Proof.
  intros gps.
  destruct (AcquisitionFacts.unlisted_vehicle_stops_at_route_lookup
              PipelineExamples.bus_config (PStr "ghost") eq_refl)
    as [Hinfo Hcycle].
  split; [exact Hinfo|].
  destruct (Hcycle ∅ gps (Some FeedExamples.empty_index) noon eq_refl)
    as [_ Hstops].
  apply Hstops; [|reflexivity].
  intros Hempty. apply (f_equal (λ gps, gps !! "device_id")) in Hempty.
  unfold gps in Hempty. rewrite lookup_insert_eq, lookup_empty in Hempty.
  discriminate.
Defined.

(** A telemetry request that times out: the cycle runs on the one-key dict
    and stops at the route lookup, not at the failed fetch. *)
Lemma timed_out_fetch_reaches_route_lookup :
  fetch_gps_data (RequestFailed "timed out") = {["error" := PStr "timed out"]}
  ∧ process_data ∅ PipelineExamples.bus_config
      (fetch_gps_data (RequestFailed "timed out"))
      (Some FeedExamples.empty_index) noon
    = AcquisitionFacts.stopped ∅ NoRouteInformation.
Proof.
  split; [reflexivity|].
  apply (AcquisitionFacts.failed_gps_fetch_goes_unnoticed
           (RequestFailed "timed out") ∅ PipelineExamples.bus_config
           (Some FeedExamples.empty_index) noon I eq_refl eq_refl).
Defined.

(** A stops table that lists stop [S1] twice. *)
Definition renamed_stop : raw_tables :=
  <["stops" := [ScheduleExamples.stop_row "S1" "First" 40 (-75);
                ScheduleExamples.stop_row "S2" "Second" 41 (-75);
                ScheduleExamples.stop_row "S1" "First Street" 42 (-75)]]> ∅.

(** Of the two rows of stop [S1] the index keeps the second. *)
Lemma renamed_stop_keeps_last_row :
  ∃ g stops,
    process_gtfs_data renamed_stop = Ok g
    ∧ Schedule.stops g = Some stops
    ∧ stop_name <$> stops !! "S1" = Some (PStr "First Street")
    ∧ stop_name <$> stops !! "S2" = Some (PStr "Second").
Proof.
  eassert (process_gtfs_data renamed_stop = Ok _) as Hg by reflexivity.
  destruct (IndexFacts.last_row_of_an_id_wins renamed_stop _ "S1" Hg)
    as (routes & trips & stops & _ & _ & Hstops & _ & _ & Hfirst).
  destruct (IndexFacts.last_row_of_an_id_wins renamed_stop _ "S2" Hg)
    as (routes' & trips' & stops' & _ & _ & Hstops' & _ & _ & Hsecond).
  rewrite Hstops in Hstops'. injection Hstops' as <-.
  eexists _, stops. split; [exact Hg|]. split; [exact Hstops|].
  rewrite Hfirst, Hsecond. split; reflexivity.
Defined.

(** The stop sequence of trip [T] of the two stops, and none for a trip no
    row names. *)
Lemma two_stops_sequence :
  ∃ g sequences entries,
    process_gtfs_data ScheduleExamples.two_stops = Ok g
    ∧ stop_sequences g = Some sequences
    ∧ sequences !! "T" = Some entries
    ∧ seq_stop_id <$> entries = ["S1"; "S2"]
    ∧ sequences !! "U" = None.
Proof.
  eassert (process_gtfs_data ScheduleExamples.two_stops = Ok _) as Hg by reflexivity.
  destruct (IndexFacts.stop_sequence_of_trip ScheduleExamples.two_stops _ "T" Hg)
    as (sequences & Hsequences & Hentries).
  destruct (IndexFacts.stop_sequence_of_trip ScheduleExamples.two_stops _ "U" Hg)
    as (sequences' & Hsequences' & Hnone).
  rewrite Hsequences in Hsequences'. injection Hsequences' as <-.
  eexists _, sequences, _. split; [exact Hg|]. split; [exact Hsequences|].
  split; [exact Hentries|]. split; [reflexivity|]. exact Hnone.
Defined.

(** An alert whose cause is not a number of the enum. *)
Definition unknown_cause : alert_data :=
  {| alert_id := Some (PStr "A2");
     alert_header := None;
     alert_description := None;
     alert_duration := None;
     alert_affected_entities := None;
     alert_cause := Some (PInt 99);
     alert_effect := None |}.

(** A schedule with three alerts, the second of which cannot be built. *)
Definition three_alerts : gtfs_data :=
  {| routes := Some ∅; trips := Some ∅; stops := Some ∅;
     stop_sequences := Some ∅;
     alerts := Some [FeedExamples.blank_alert; unknown_cause;
                     FeedExamples.blank_alert] |}.

(** The cycle saves the position, the update and the first alert, and ends
    with the exception of the second alert. *)
Lemma second_alert_ends_the_cycle :
  ∃ position update alert table,
    build_feeds ∅ FeedExamples.resolved three_alerts noon
    = {| positions := table;
         saved := [("vehicle_position", position); ("trip_update", update);
                   ("service_alert", alert)];
         ended := Raised ValueError |}.
Proof.
  eassert (create_vehicle_position ∅ FeedExamples.resolved noon = (Ok _, _))
    as Hposition.
  { unfold create_vehicle_position.
    rewrite ClockFacts.make_header_noon, ClockFacts.int_time_noon. reflexivity. }
  eassert (create_trip_update FeedExamples.resolved three_alerts noon = Ok _)
    as Hupdate.
  { unfold create_trip_update.
    rewrite ClockFacts.make_header_noon, ClockFacts.int_time_noon. reflexivity. }
  eassert (create_service_alert FeedExamples.blank_alert noon = Ok _) as Halert.
  { unfold create_service_alert, period_end.
    rewrite ClockFacts.make_header_noon, ClockFacts.int_time_noon. reflexivity. }
  assert (create_service_alert unknown_cause noon = Raise ValueError) as Hbad.
  { unfold create_service_alert, period_end.
    rewrite ClockFacts.make_header_noon, ClockFacts.int_time_noon. reflexivity. }
  destruct (CycleFacts.first_bad_alert_ends_the_cycle
              ∅ FeedExamples.resolved three_alerts noon _ _ _ Hposition Hupdate)
    as [Hraised _].
  eexists _, _, _, _.
  apply (Hraised [FeedExamples.blank_alert] [_] unknown_cause ValueError
           [FeedExamples.blank_alert] eq_refl).
  - constructor; [exact Halert|constructor].
  - exact Hbad.
Defined.

(** The vehicle position of the bus at (40, -75): the entity is named after
    the device and the fix is stored under its id. *)
Lemma position_and_table_agree :
  ∃ msg prev' e,
    create_vehicle_position ∅ FeedExamples.resolved noon = (Ok msg, prev')
    ∧ entity msg = [e]
    ∧ entity_id e = "bus"
    ∧ prev' !! "bus" = Some {| prev_latitude := 40; prev_longitude := -75;
                               prev_timestamp := time_time noon |}.
Proof.
  eassert (create_vehicle_position ∅ FeedExamples.resolved noon = (Ok _, _))
    as Hposition.
  { unfold create_vehicle_position.
    rewrite ClockFacts.make_header_noon, ClockFacts.int_time_noon. reflexivity. }
  destruct (BuilderFacts.message_and_baseline_agree _ _ _ _ _ Hposition)
    as (e & v & Hentity & _ & Hid & _).
  eexists _, _, e. split; [exact Hposition|]. split; [exact Hentity|].
  split; [exact Hid|]. reflexivity.
Defined.

(** A bus that stands where its stored fix is, reporting a bearing of 90:
    the message says 0. *)
Lemma parked_bus_heads_north :
  estimate {["bus" := HeadingExamples.fix_at 40 (-75)]} HeadingExamples.real_fix noon
  = Ok ({| latitude := 40; longitude := -75; bearing := 0 |},
        <["bus" := {| prev_latitude := 40; prev_longitude := -75;
                      prev_timestamp := time_time noon |}]>
          {["bus" := HeadingExamples.fix_at 40 (-75)]}).
Proof.
  assert (40 ≠ 0)%R as Hlat by lra.
  assert (-75 ≠ 0)%R as Hlon by lra.
  exact (BearingFacts.stationary_vehicle_heads_north
           {["bus" := HeadingExamples.fix_at 40 (-75)]} HeadingExamples.real_fix
           noon 40 (-75) (HeadingExamples.fix_at 40 (-75))
           eq_refl eq_refl eq_refl eq_refl eq_refl Hlat Hlon).
Defined.

(** With the 14:00 trip listed before the 09:00 trip, the loop at noon
    breaks at the 14:00 trip and the 09:00 trip is never looked at. *)
Lemma unsorted_trips_hide_the_running_trip :
  select_trip [trip "T06" "06:00:00"; trip "T14" "14:00:00"; trip "T09" "09:00:00"]
    "12:00:00"
  = select_trip [trip "T06" "06:00:00"; trip "T14" "14:00:00"] "12:00:00"
  ∧ select_trip [trip "T06" "06:00:00"; trip "T14" "14:00:00"] "12:00:00"
    = Ok (Some (trip "T06" "06:00:00")).
Proof.
  split; [|reflexivity].
  exact (SelectionFacts.trips_after_the_break_are_ignored
           [trip "T06" "06:00:00"] (trip "T14" "14:00:00")
           [trip "T09" "09:00:00"] [] "12:00:00" eq_refl).
Defined.

(** The three trips are listed in ascending order: at noon the 09:00 trip
    is selected, before 06:00 the first trip. *)
Lemma three_trips_latest_started :
  select_trip three_trips "12:00:00" = Ok (Some (trip "T09" "09:00:00"))
  ∧ select_trip three_trips "05:00:00" = Ok (Some (trip "T06" "06:00:00")).
Proof.
  assert (Forall TripSelection.well_formed three_trips) as Hwf.
  { repeat constructor; eexists; reflexivity. }
  assert (StronglySorted SelectionFacts.starts_no_later three_trips) as Hsorted.
  { repeat constructor; eexists _, _; repeat split; reflexivity. }
  split.
  - destruct (SelectionFacts.sorted_trips_select_latest_started
                three_trips "12:00:00" Hwf Hsorted) as (choice & -> & -> & _).
    reflexivity.
  - destruct (SelectionFacts.sorted_trips_select_latest_started
                three_trips "05:00:00" Hwf Hsorted) as (choice & -> & -> & _).
    reflexivity.
Defined.

(** The bus listed under the number its tracker reports, with a device id
    and a label of the operator's. *)
Definition fleet_config : config :=
  {| vehicles := Some {[ "bus" := {|
       vehicle_fields :=
         <["device_id" := PStr "AVL-7"]> (<["label" := PStr "Seven"]> ∅);
       vehicle_routes :=
         Some {[ "R1" := {| route_trips := Some three_trips |} ]} |} ]} |}.

(** The message names the vehicle [AVL-7], not [bus], and the fix is
    stored under [AVL-7]. *)
Lemma fleet_identity_is_used :
  ∃ merged position prev' e,
    process_data ∅ fleet_config (PipelineExamples.on_route "R1")
      (Some FeedExamples.empty_index) noon
    = build_feeds ∅ merged FeedExamples.empty_index noon
    ∧ create_vehicle_position ∅ merged noon = (Ok position, prev')
    ∧ entity position = [e]
    ∧ entity_id e = "AVL-7"
    ∧ prev' !! "bus" = None.
Proof.
  destruct (CycleFacts.configured_identity_overrides_telemetry
              ∅ fleet_config (PipelineExamples.on_route "R1")
              FeedExamples.empty_index noon
              {| route_trips := Some three_trips |} (trip "T09" "09:00:00")
              (PStr "AVL-7") (PStr "Seven") (PStr "T09") (PInt 0)
              (on_route_not_empty "R1") eq_refl eq_refl eq_refl eq_refl
              eq_refl eq_refl eq_refl eq_refl)
    as (Hcycle & _ & Hnames).
  eassert (create_vehicle_position ∅ _ noon = (Ok _, _)) as Hposition.
  2: {
    destruct (Hnames _ _ Hposition)
      as (e & v & Hentity & _ & Hid & _ & _ & _ & _ & Hothers).
    eexists _, _, _, e. split; [exact Hcycle|]. split; [exact Hposition|].
    split; [exact Hentity|]. split; [exact Hid|].
    rewrite Hothers by discriminate. apply lookup_empty. }
  unfold create_vehicle_position.
  rewrite ClockFacts.make_header_noon, ClockFacts.int_time_noon. reflexivity.
Defined.

(** A route whose one trip has no [direction_id]. *)
Definition undirected_config : config :=
  {| vehicles := Some {[ "bus" := {|
       vehicle_fields :=
         <["device_id" := PStr "bus"]> (<["label" := PStr "Bus 1"]> ∅);
       vehicle_routes :=
         Some {[ "R1" := {| route_trips :=
                   Some [<["trip_id" := PStr "T06"]>
                           (<["start_time" := PStr "06:00:00"]> ∅)] |} ]} |} ]} |}.

(** The cycle on that route ends with a [KeyError], nothing saved. *)
Lemma undirected_trip_raises :
  process_data {["bus" := HeadingExamples.fix_at 41 (-75)]} undirected_config
    (PipelineExamples.on_route "R1") (Some FeedExamples.empty_index) noon
  = {| positions := {["bus" := HeadingExamples.fix_at 41 (-75)]};
       saved := []; ended := Raised KeyError |}.
Proof.
  apply (CycleFacts.missing_context_key_raises
           {["bus" := HeadingExamples.fix_at 41 (-75)]} undirected_config
           (PipelineExamples.on_route "R1") FeedExamples.empty_index noon
           {| route_trips :=
                Some [<["trip_id" := PStr "T06"]>
                        (<["start_time" := PStr "06:00:00"]> ∅)] |}
           (<["trip_id" := PStr "T06"]> (<["start_time" := PStr "06:00:00"]> ∅))
           (on_route_not_empty "R1") eq_refl eq_refl eq_refl eq_refl).
  right. left. reflexivity.
Defined.

(** The trip update of the bus at noon, for a trip the empty index has no
    stops for: the start time is the clock's. *)
Lemma update_starts_at_the_clock :
  ∃ msg e t,
    create_trip_update FeedExamples.resolved FeedExamples.empty_index noon = Ok msg
    ∧ entity msg = [e]
    ∧ entity_payload e = TripUpdateOf t
    ∧ entity_id e = "trip_T"
    ∧ start_time (tu_trip t) = Some "12:00:00"
    ∧ start_date (tu_trip t) = "20240115"
    ∧ stop_time_update t = [].
Proof.
  eassert (create_trip_update FeedExamples.resolved FeedExamples.empty_index noon
           = Ok _) as Hupdate.
  { unfold create_trip_update.
    rewrite ClockFacts.make_header_noon, ClockFacts.int_time_noon. reflexivity. }
  destruct (TripUpdateFacts.trip_update_describes_the_trip _ _ _ _ Hupdate)
    as (e & t & Hentity & Hpayload & Hid & _ & _ & Hstart & Hdate & _ & _ & _
        & Hstops).
  eexists _, e, t. split; [exact Hupdate|]. split; [exact Hentity|].
  split; [exact Hpayload|]. split; [exact Hid|]. split; [exact Hstart|].
  split; [exact Hdate|]. apply (Hstops ∅); reflexivity.
Defined.

End Scenarios.
